(** * Session scheduling routes of LockedIn-BackSupa (src/src/routes/sessions.js)

    Shallow embedding of the session routes: the caller lookup [getUser],
    the membership gate [requireGroupMember], session creation with its
    per-member fan-out, the authenticated RSVP route [respond], session
    listing and deletion, the unauthenticated e-mail link RSVP routes, the
    group message routes, the request body the production Mailjet sender
    builds, and the unused [getUserOrService] middleware.

    The datastore is modelled as lists of rows ([sessions],
    [session_invites], [group_members], [profiles]).  Its queries answer as
    supabase-js and PostgREST do: a [.single()] lookup that finds no row
    answers [data: null] together with the error [PGRST116], a
    [.maybeSingle()] lookup answers [data: null] without an error, and
    [.in(column, values)] needs an array of values: given a query builder,
    as [respond] passes it, it throws a TypeError before any request is
    sent.  Instants are milliseconds since the epoch ([Z]), i.e. the value
    of [new Date(..).getTime()]. *)

From Stdlib Require Import String Ascii List ZArith Bool Lia Arith.
From Stdlib Require Import Sorting.Permutation Sorting.Sorted.
Import ListNotations.
Open Scope string_scope.
Open Scope list_scope.
Open Scope nat_scope.

(** ** Rows *)

Inductive rsvp := Pending | Accepted | Declined.

Definition rsvp_eqb (a b : rsvp) : bool :=
  match a, b with
  | Pending, Pending | Accepted, Accepted | Declined, Declined => true
  | _, _ => false
  end.

(** the [status] text stored in [session_invites] *)
Definition rsvp_text (r : rsvp) : string :=
  match r with
  | Pending => "pending" | Accepted => "accepted" | Declined => "declined"
  end.

(** a row of [sessions]; [start_at] is the stored instant *)
Record session := mkSession {
  id : nat;
  group_id : nat;
  creator_id : nat;
  start_at : Z;
  venue : option string;
  topic : option string;
  time_goal_minutes : option Z;
  content_goal : option string
}.

(** a row of [session_invites], keyed by [(session_id, user_id)] *)
Record invite := mkInvite {
  session_id : nat;
  user_id : nat;
  status : rsvp;
  responded_at : option Z
}.

(** a row of [profiles] *)
Record profile := mkProfile {
  pid : nat;
  email : option string;
  full_name : string
}.

(** an outgoing e-mail: an RSVP invitation for [(session, member)], or a
    conflict notice sent to a creator and naming the conflicting member *)
Inductive mail_kind :=
| Invitation (sid : nat) (uid : nat)
| ConflictAlert (uid : nat).

(** one call of [sendEmailSafe]; [delivered] is whether the mail API
    accepted it (the result is never inspected by the routes) *)
Record mail := mkMail {
  mail_to : string;
  mail_about : mail_kind;
  delivered : bool
}.

(** the datastore reads issued by the conflict check of the creation fan-out *)
Inductive query :=
| QAcceptedInvites (u : nat)                (* session_invites where user_id = u, status = accepted *)
| QSessionsIn (ids : list nat).             (* sessions where id in ids *)

Record db := mkDb {
  sessions : list session;
  session_invites : list invite;
  group_members : list (nat * nat);         (* (group_id, user_id) *)
  profiles : list profile;
  next_id : nat;                            (* next store-assigned session id *)
  mails : list mail;                        (* every e-mail dispatch, in order *)
  query_log : list query                    (* conflict-check reads, in order *)
}.

Definition set_sessions (d : db) (l : list session) : db :=
  mkDb l (session_invites d) (group_members d) (profiles d) (next_id d) (mails d) (query_log d).
Definition set_invites (d : db) (l : list invite) : db :=
  mkDb (sessions d) l (group_members d) (profiles d) (next_id d) (mails d) (query_log d).
Definition set_next_id (d : db) (n : nat) : db :=
  mkDb (sessions d) (session_invites d) (group_members d) (profiles d) n (mails d) (query_log d).
Definition set_mails (d : db) (l : list mail) : db :=
  mkDb (sessions d) (session_invites d) (group_members d) (profiles d) (next_id d) l (query_log d).
Definition set_log (d : db) (l : list query) : db :=
  mkDb (sessions d) (session_invites d) (group_members d) (profiles d) (next_id d) (mails d) l.

(** the JavaScript truthiness of an optional string: [undefined], [null]
    and [""] are falsy *)
Definition truthy (o : option string) : bool :=
  match o with
  | Some s => negb (String.eqb s "")
  | None => false
  end.

(** ** Responses *)

Inductive auth_error :=
| AuthApiError                 (* the verifier rejects the token: bad, expired, malformed *)
| AuthRetryableFetchError.     (* the verifier could not be reached *)

Inductive error :=
| EAuth (e : auth_error)
| ETypeError                   (* a JavaScript TypeError, e.g. reading a field of null *)
| EStore (code : string).      (* a PostgREST error the route rethrows, e.g. "PGRST116" *)

Inductive body :=
| BSession (s : session)
| BSessions (l : list session)
| BMessage (m : string).

(** [res.json(b)] is a 200; [res.status(c).json({ error: m })] is [Status c m];
    [next(e)] reaches the error handler of server.js, which answers 500 *)
Inductive response :=
| Json (b : body)
| Status (code : nat) (msg : string)
| Internal (e : error).

Definition http_code (r : response) : nat :=
  match r with
  | Json _ => 200
  | Status c _ => c
  | Internal _ => 500
  end.

(** ** Identity: [getUser] and [getUserOrService] *)

(** what [supabase.auth.getUser(token)] answers *)
Inductive verify_result :=
| VUser (u : nat)              (* { data: { user }, error: null } *)
| VNoUser                      (* { data: { user: null }, error: null } *)
| VError (e : auth_error).     (* { error } *)

Inductive user_result :=
| UUser (u : nat)
| UNull
| UThrow (e : auth_error).

(** [authHeader.startsWith("Bearer ") ? authHeader.slice(7) : null] *)
Definition bearer_token (hdr : option string) : option string :=
  let h := match hdr with Some h => h | None => "" end in
  if String.prefix "Bearer " h then Some (substring 7 (String.length h - 7) h) else None.

(** [getUser(req)] of sessions.js *)
Definition getUser (verify : string -> verify_result) (hdr : option string) : user_result :=
  let token := bearer_token hdr in
  if negb (truthy token) then UNull
  else match token with
       | None => UNull
       | Some t =>
           match verify t with
           | VError e => UThrow e
           | VUser u => UUser u
           | VNoUser => UNull
           end
       end.

(** the service user returned for a matching [lock-api-key] header *)
Definition service_user : nat := 0.

(** [getUserOrService(req)] of middleware/auth.js *)
Definition getUserOrService (service_key : option string) (api_key : option string)
    (verify : string -> verify_result) (hdr : option string) : user_result :=
  match api_key, service_key with
  | Some k, Some sk => if truthy (Some k) && String.eqb k sk then UUser service_user
                       else getUser verify hdr
  | _, _ => getUser verify hdr
  end.

(** ** Store queries *)

(** [requireGroupMember(group_id, user_id)]: one existence lookup *)
Definition requireGroupMember (d : db) (g u : nat) : bool :=
  existsb (fun gm => Nat.eqb (fst gm) g && Nat.eqb (snd gm) u) (group_members d).

(** [.from("sessions").select(..).eq("id", sid).single()] *)
Definition find_session (d : db) (sid : nat) : option session :=
  find (fun s => Nat.eqb (id s) sid) (sessions d).

(** [.from("profiles").select(..).eq("id", u).single()] *)
Definition find_profile (d : db) (u : nat) : option profile :=
  find (fun p => Nat.eqb (pid p) u) (profiles d).

(** [.from("session_invites").select("session_id").eq("user_id", u).eq("status", "accepted")] *)
Definition accepted_session_ids (d : db) (u : nat) : list nat :=
  map session_id
    (filter (fun i => Nat.eqb (user_id i) u && rsvp_eqb (status i) Accepted) (session_invites d)).

(** [.from("sessions").select(..).in("id", ids)] *)
Definition sessions_in (d : db) (ids : list nat) : list session :=
  filter (fun s => existsb (Nat.eqb (id s)) ids) (sessions d).

(** [.from("group_members").select("profiles(id, email, full_name)")
    .eq("group_id", g).neq("user_id", u)]: the joined profile of every other
    member, [None] where the join finds no profile row *)
Definition member_profiles (d : db) (g u : nat) : list (option profile) :=
  map (fun gm => find_profile d (snd gm))
    (filter (fun gm => Nat.eqb (fst gm) g && negb (Nat.eqb (snd gm) u)) (group_members d)).

Definition same_key (x r : invite) : bool :=
  Nat.eqb (session_id r) (session_id x) && Nat.eqb (user_id r) (user_id x).

(** the [values] argument of [.in(column, values)] *)
Inductive in_values :=
| InList (ids : list nat)                   (* an array of ids *)
| InBuilder (q : query).                    (* a query builder that was never awaited *)

(** the ids [.in(column, values)] filters on: postgrest-js turns [values]
    into the filter text as an array, and a query builder is neither an
    array nor iterable, so the call throws a TypeError ([None]) before any
    request is sent *)
Definition in_values_list (v : in_values) : option (list nat) :=
  match v with
  | InList ids => Some ids
  | InBuilder _ => None
  end.

(** [.from("session_invites").insert(x)]: a row with the same key makes the
    insert fail, and the fan-out loop ignores the returned error *)
Definition insert_invite (d : db) (x : invite) : db :=
  if existsb (same_key x) (session_invites d) then d
  else set_invites d (session_invites d ++ [x]).

(** [.from("session_invites").upsert(x)] on the key [(session_id, user_id)] *)
Definition upsert_invite (d : db) (x : invite) : db :=
  if existsb (same_key x) (session_invites d)
  then set_invites d (map (fun r => if same_key x r then x else r) (session_invites d))
  else set_invites d (session_invites d ++ [x]).

(** [.from("sessions").delete().eq("id", sid)] *)
Definition delete_rows (d : db) (sid : nat) : db :=
  set_sessions d (filter (fun s => negb (Nat.eqb (id s) sid)) (sessions d)).

(** insertion by [start_at] for [.order("start_at", { ascending: true })] *)
Fixpoint insert_by_start (s : session) (l : list session) : list session :=
  match l with
  | [] => [s]
  | x :: r => if Z.leb (start_at s) (start_at x) then s :: x :: r else x :: insert_by_start s r
  end.

Fixpoint sort_by_start (l : list session) : list session :=
  match l with
  | [] => []
  | x :: r => insert_by_start x (sort_by_start r)
  end.

Definition log_queries (d : db) (qs : list query) : db :=
  set_log d (query_log d ++ qs).

(** ** The conflict check *)

(** the check of the creation fan-out (lines 397-414): with no accepted
    invite, the sessions are not read.  [respond] has no working check of
    its own: see [post_respond]. *)
Definition create_conflict_check (d : db) (u : nat) (starts : Z) : bool * list query :=
  match accepted_session_ids d u with
  | [] => (false, [QAcceptedInvites u])
  | ids => (existsb (fun c => Z.eqb (start_at c) starts) (sessions_in d ids),
            [QAcceptedInvites u; QSessionsIn ids])
  end.

Section Routes.

(** [new Date(s).getTime()], [None] for [NaN] *)
Variable Date_parse : string -> option Z.
(** whether the mail API accepts a message to this address *)
Variable mail_ok : string -> bool.

(** [sendEmailSafe(to, ..)]: its result is never inspected *)
Definition send_mail (d : db) (to : string) (k : mail_kind) : db :=
  set_mails d (mails d ++ [mkMail to k (mail_ok to)]).

(** [if (creator?.email) await sendEmailSafe(creator.email, ..)] *)
Definition alert_creator (d : db) (creator : nat) (member : nat) : db :=
  match find_profile d creator with
  | Some cp =>
      match email cp with
      | Some e => if truthy (Some e) then send_mail d e (ConflictAlert member) else d
      | None => d
      end
  | None => d
  end.

(** one iteration of the fan-out loop (lines 387-470) for a joined profile *)
Definition fan_out_member (creator : nat) (s : session) (m : profile) (d : db) : db :=
  match email m with
  | Some e =>
      if negb (truthy (Some e)) then d                (* if (!memberProfile.email) continue *)
      else
        let (hasConflict, qs) := create_conflict_check d (pid m) (start_at s) in
        let d := log_queries d qs in
        if hasConflict then alert_creator d creator (pid m)
        else insert_invite (send_mail d e (Invitation (id s) (pid m)))
                           (mkInvite (id s) (pid m) Pending None)
  | None => d
  end.

Fixpoint fan_out (creator : nat) (s : session) (ms : list profile) (d : db) : db :=
  match ms with
  | [] => d
  | m :: rest => fan_out creator s rest (fan_out_member creator s m d)
  end.

(** [members.map(m => m.profiles.email)] (line 383) throws on a member row
    whose profile join is [null]; otherwise the joined profiles *)
Fixpoint all_profiles (l : list (option profile)) : option (list profile) :=
  match l with
  | [] => Some []
  | None :: _ => None
  | Some p :: r => match all_profiles r with Some ps => Some (p :: ps) | None => None end
  end.

(** the body of [POST /groups/:groupId/sessions] *)
Record create_body := mkCreateBody {
  b_start_at : option string;
  b_venue : option string;
  b_topic : option string;
  b_time_goal_minutes : option Z;
  b_content_goal : option string
}.

Definition msg_required : string := "start_at is required".
Definition msg_invalid : string := "Invalid start_at".
Definition msg_past : string := "start_at cannot be in the past".

(** [router.post("/groups/:groupId/sessions")] (lines 332-480); [now] is
    [new Date()] at validation time *)
Definition post_sessions (now : Z) (verify : string -> verify_result) (hdr : option string)
    (groupId : nat) (b : create_body) (d : db) : response * db :=
  match getUser verify hdr with
  | UThrow e => (Internal (EAuth e), d)
  | UNull => (Status 401 "Unauthorized", d)
  | UUser user =>
      if negb (requireGroupMember d groupId user) then (Status 403 "Not a group member", d)
      else if negb (truthy (b_start_at b)) then (Status 400 msg_required, d)
      else
        match b_start_at b with
        | None => (Status 400 msg_required, d)
        | Some raw =>
            match Date_parse raw with
            | None => (Status 400 msg_invalid, d)
            | Some starts =>
                if Z.ltb starts now then (Status 400 msg_past, d)
                else
                  let sessionData :=
                    mkSession (next_id d) groupId user starts
                      (b_venue b) (b_topic b) (b_time_goal_minutes b) (b_content_goal b) in
                  let d := set_next_id (set_sessions d (sessions d ++ [sessionData])) (S (next_id d)) in
                  match member_profiles d groupId user with
                  | [] => (Json (BSession sessionData), d)           (* "No members to email." *)
                  | members =>
                      match all_profiles members with
                      | None => (Internal ETypeError, d)
                      | Some ms => (Json (BSession sessionData), fan_out user sessionData ms d)
                      end
                  end
            end
        end
  end.

(** [["accepted", "declined"].includes(status)] *)
Definition parse_status (st : option string) : option rsvp :=
  match st with
  | Some "accepted" => Some Accepted
  | Some "declined" => Some Declined
  | _ => None
  end.

(** [router.post("/groups/:groupId/sessions/:sessionId/respond")] (lines 513-587).
    The session lookup uses [.single()], so a missing session answers an
    error and the route's [if (sErr || !session)] gives 404.  For
    [accepted], the conflict read (lines 539-548) passes the unawaited
    builder of the caller's accepted invites to [.in("id", ..)]; the call
    throws, [next(e)] answers 500, and nothing is read, written or mailed.
    The branch after a successful [.in] is written out as the code has it,
    and is never reached. *)
Definition post_respond (now : Z) (verify : string -> verify_result) (hdr : option string)
    (groupId sessionId : nat) (st : option string) (d : db) : response * db :=
  match getUser verify hdr with
  | UThrow e => (Internal (EAuth e), d)
  | UNull => (Status 401 "Unauthorized", d)
  | UUser user =>
      match parse_status st with
      | None => (Status 400 "Invalid status", d)
      | Some status =>
          if negb (requireGroupMember d groupId user) then (Status 403 "Not a group member", d)
          else
            match find_session d sessionId with
            | None => (Status 404 "Session not found", d)
            | Some s =>
                let respond_ok (d : db) :=
                  (Json (BMessage ("Invite " ++ rsvp_text status)),
                   upsert_invite d (mkInvite sessionId user status (Some now))) in
                if rsvp_eqb status Accepted then
                  match in_values_list (InBuilder (QAcceptedInvites user)) with
                  | None => (Internal ETypeError, d)
                  | Some ids =>
                      let d := log_queries d [QSessionsIn ids] in
                      if existsb (fun c => Z.eqb (start_at c) (start_at s)) (sessions_in d ids)
                      then (Status 409 "You already accepted a session at this time",
                            alert_creator d (creator_id s) user)
                      else respond_ok d
                  end
                else respond_ok d
            end
      end
  end.

(** [router.get("/groups/:groupId/sessions")] (lines 591-608) *)
Definition get_sessions (verify : string -> verify_result) (hdr : option string)
    (groupId : nat) (d : db) : response :=
  match getUser verify hdr with
  | UThrow e => Internal (EAuth e)
  | UNull => Status 401 "Unauthorized"
  | UUser user =>
      if negb (requireGroupMember d groupId user) then Status 403 "Not a group member"
      else Json (BSessions (sort_by_start (filter (fun s => Nat.eqb (group_id s) groupId) (sessions d))))
  end.

(** [router.delete("/groups/:groupId/sessions/:sessionId")] (lines 610-631).
    The lookup uses [.single()]: a missing session answers [PGRST116], which
    [if (sErr) throw sErr] rethrows before [if (!s)] is reached. *)
Definition delete_session (verify : string -> verify_result) (hdr : option string)
    (groupId sessionId : nat) (d : db) : response * db :=
  match getUser verify hdr with
  | UThrow e => (Internal (EAuth e), d)
  | UNull => (Status 401 "Unauthorized", d)
  | UUser user =>
      if negb (requireGroupMember d groupId user) then (Status 403 "Not a group member", d)
      else
        match find_session d sessionId with
        | None => (Internal (EStore "PGRST116"), d)
        | Some s =>
            if negb (Nat.eqb (creator_id s) user) then (Status 403 "Only the creator can delete", d)
            else (Json (BMessage "Session deleted"), delete_rows d sessionId)
        end
  end.

(** a sequence of creations and authenticated responses *)
Inductive op :=
| OpCreate (now : Z) (verify : string -> verify_result) (hdr : option string)
    (groupId : nat) (b : create_body)
| OpRespond (now : Z) (verify : string -> verify_result) (hdr : option string)
    (groupId sessionId : nat) (st : option string).

Definition run_op (o : op) (d : db) : db :=
  match o with
  | OpCreate now verify hdr g b => snd (post_sessions now verify hdr g b d)
  | OpRespond now verify hdr g sid st => snd (post_respond now verify hdr g sid st d)
  end.

Fixpoint run_ops (os : list op) (d : db) : db :=
  match os with
  | [] => d
  | o :: rest => run_ops rest (run_op o d)
  end.

End Routes.

(** the store with its groups and profiles and no session yet *)
Definition init_db (members : list (nat * nat)) (ps : list profile) : db :=
  mkDb [] [] members ps 0 [] [].

(** number of [accepted] invites of [u] whose session starts at [t] *)
Definition session_starts_at (d : db) (sid : nat) (t : Z) : bool :=
  match find_session d sid with
  | Some s => Z.eqb (start_at s) t
  | None => false
  end.

Definition booked (d : db) (u : nat) (t : Z) (i : invite) : bool :=
  Nat.eqb (user_id i) u && rsvp_eqb (status i) Accepted && session_starts_at d (session_id i) t.

Definition accepted_at (d : db) (u : nat) (t : Z) : nat :=
  length (filter (booked d u t) (session_invites d)).

(** the member an e-mail is about *)
Definition mail_member (k : mail_kind) : nat :=
  match k with
  | Invitation _ uid => uid
  | ConflictAlert uid => uid
  end.

(** what one fan-out iteration may add for member [m] of session [s] *)
Definition fan_out_adds (s : session) (m : profile)
    (ni : list invite) (nm : list mail) (nq : list query) : Prop :=
  ((ni = [] /\ nm = [] /\ nq = []) \/ truthy (email m) = true) /\
  (forall i, In i ni -> i = mkInvite (id s) (pid m) Pending None) /\
  (forall x, In x nm -> mail_member (mail_about x) = pid m) /\
  (forall q, In q nq -> q = QAcceptedInvites (pid m) \/ exists ids, q = QSessionsIn ids).

(** [d'] extends [d] with the rows [ni], the mails [nm] and the reads [nq] *)
Definition extends (d d' : db) (ni : list invite) (nm : list mail) (nq : list query) : Prop :=
  session_invites d' = session_invites d ++ ni /\ mails d' = mails d ++ nm /\
  query_log d' = query_log d ++ nq /\ sessions d' = sessions d /\ next_id d' = next_id d /\
  group_members d' = group_members d /\ profiles d' = profiles d.

(** ** The e-mail link RSVP routes (lines 483-510) *)

Section LinkRoutes.

(** whether the store refuses a [session_invites] row with key
    [(sessionId, userId)]: its constraints on the key (references to the
    session and to the user, the types of the two path texts) read the
    [sessions] and [profiles] tables and the key, never the status, the time
    or the other invite rows *)
Variable upsert_rejected : list session -> list profile -> nat -> nat -> bool.

(** the shared body of the two link handlers: one upsert of
    [(sessionId, userId, status, new Date().toISOString())]; on an error a
    500 "Error updating RSVP", otherwise a plain-text 200.  Neither handler
    authenticates the caller, checks membership, looks the session up or
    runs a conflict check. *)
Definition rsvp_link (st : rsvp) (msg : string) (now : Z) (sessionId userId : nat) (d : db)
    : (nat * string) * db :=
  if upsert_rejected (sessions d) (profiles d) sessionId userId
  then ((500, "Error updating RSVP"), d)
  else ((200, msg), upsert_invite d (mkInvite sessionId userId st (Some now))).

(** [router.get("/sessions/:sessionId/accept/:userId")] *)
Definition get_accept (now : Z) (sessionId userId : nat) (d : db) : (nat * string) * db :=
  rsvp_link Accepted "✅ You’ve accepted the session!" now sessionId userId d.

(** [router.get("/sessions/:sessionId/decline/:userId")] *)
Definition get_decline (now : Z) (sessionId userId : nat) (d : db) : (nat * string) * db :=
  rsvp_link Declined "❌ You’ve declined the session." now sessionId userId d.

End LinkRoutes.

(** the invite row stored under the key [(sid, uid)] *)
Definition find_invite (d : db) (sid uid : nat) : option invite :=
  find (fun i => Nat.eqb (session_id i) sid && Nat.eqb (user_id i) uid) (session_invites d).

(** ** The Mailjet sender of [emailService.sendEmail] (lines 244-293) *)

(** the text after the first [>] of [s] *)
Fixpoint after_gt (s : string) : option string :=
  match s with
  | EmptyString => None
  | String c r => if Ascii.eqb c ">"%char then Some r else after_gt r
  end.

(** a match of [/<[^>]*>/] at the start of [s]: a [<], then everything up to
    and including the first [>]; the text after the match *)
Definition match_tag (s : string) : option string :=
  match s with
  | String c r => if Ascii.eqb c "<"%char then after_gt r else None
  | EmptyString => None
  end.

(** global replacement, scanning left to right: a match is dropped and the
    scan resumes after it, otherwise the character is kept *)
Fixpoint strip_fuel (n : nat) (s : string) : string :=
  match n with
  | O => s
  | S n' =>
      match s with
      | EmptyString => EmptyString
      | String c r =>
          match match_tag s with
          | Some rest => strip_fuel n' rest
          | None => String c (strip_fuel n' r)
          end
      end
  end.

(** [html.replace(/<[^>]*>/g, '')]; every step consumes a character, so the
    length of [s] is enough fuel *)
Definition strip_tags (s : string) : string := strip_fuel (String.length s) s.

(** [to.split('@')[0]] *)
Fixpoint before_at (s : string) : string :=
  match s with
  | EmptyString => EmptyString
  | String c r => if Ascii.eqb c "@"%char then EmptyString else String c (before_at r)
  end.

(** the single entry of [Messages] posted to the Mailjet API *)
Record mailjet_message := mkMailjet {
  mj_from_email : string;
  mj_from_name : string;
  mj_to_email : string;
  mj_to_name : string;
  mj_subject : string;
  mj_html : string;
  mj_text : string
}.

(** the request body built by the production [sendEmail(to, subject, html, text)] *)
Definition mailjet_payload (to subject html : string) (text : option string) : mailjet_message :=
  mkMailjet "lockedin@lockedin-backsupa.onrender.com" "LockedIn Study Groups"
    to (before_at to) subject html
    (if truthy text then match text with Some t => t | None => strip_tags html end
     else strip_tags html).

(** [sendEmailSafe(to, subject, html)] as every route calls it: no [text] *)
Definition route_mail_payload (to subject html : string) : mailjet_message :=
  mailjet_payload to subject html None.

Fixpoint has_gt (s : string) : bool :=
  match s with
  | EmptyString => false
  | String c r => Ascii.eqb c ">"%char || has_gt r
  end.

(** [s] holds a [<] followed, somewhere later, by a [>] *)
Fixpoint has_tag (s : string) : bool :=
  match s with
  | EmptyString => false
  | String c r => (Ascii.eqb c "<"%char && has_gt r) || has_tag r
  end.

Fixpoint has_at (s : string) : bool :=
  match s with
  | EmptyString => false
  | String c r => Ascii.eqb c "@"%char || has_at r
  end.

(** ** Group messages (lines 634-694) *)

(** a row of [group_messages]; [created_at] is the store's insertion time *)
Record message := mkMessage {
  mid : nat;
  m_group_id : nat;
  m_session_id : option Z;
  sender_id : nat;
  content : option string;
  attachment_url : option string;
  created_at : Z
}.

(** the store together with the [group_messages] table *)
Record mdb := mkMdb {
  base : db;
  group_messages : list message;
  next_msg_id : nat                         (* next store-assigned message id *)
}.

(** the body of [POST /groups/:groupId/messages]; [session_id] a JSON number *)
Record message_body := mkMessageBody {
  b_session_id : option Z;
  b_content : option string;
  b_attachment_url : option string
}.

(** [session_id || null] for a number: [0] is falsy *)
Definition num_or_null (o : option Z) : option Z :=
  match o with
  | Some n => if Z.eqb n 0 then None else Some n
  | None => None
  end.

Inductive msg_response :=
| MMessage (m : message)
| MMessages (l : list (message * option string))     (* each row with its [sender_name] *)
| MStatus (code : nat) (msg : string)
| MStoreError                                       (* the store rejects the query: 500 *)
| MInternal (e : error).

(** [router.post("/groups/:groupId/messages")] (lines 635-658); [now] is the
    insertion time the store records in [created_at] *)
Definition post_messages (now : Z) (verify : string -> verify_result) (hdr : option string)
    (groupId : nat) (b : message_body) (m : mdb) : msg_response * mdb :=
  match getUser verify hdr with
  | UThrow e => (MInternal (EAuth e), m)
  | UNull => (MStatus 401 "Unauthorized", m)
  | UUser user =>
      if negb (requireGroupMember (base m) groupId user) then (MStatus 403 "Not a group member", m)
      else if negb (truthy (b_content b)) && negb (truthy (b_attachment_url b))
      then (MStatus 400 "content or attachment_url required", m)
      else
        let row := mkMessage (next_msg_id m) groupId (num_or_null (b_session_id b)) user
                     (b_content b) (b_attachment_url b) now in
        (MMessage row, mkMdb (base m) (group_messages m ++ [row]) (S (next_msg_id m)))
  end.

(** insertion for [.order("created_at", { ascending: false })]; among equal
    [created_at] the stored order is kept *)
Fixpoint insert_by_created (x : message) (l : list message) : list message :=
  match l with
  | [] => [x]
  | y :: r => if Z.leb (created_at y) (created_at x) then x :: y :: r else y :: insert_by_created x r
  end.

Fixpoint sort_by_created_desc (l : list message) : list message :=
  match l with
  | [] => []
  | x :: r => insert_by_created x (sort_by_created_desc r)
  end.

(** [[...new Set(l)]]: first occurrences, in order *)
Definition nat_set (l : list nat) : list nat :=
  fold_left (fun acc x => if existsb (Nat.eqb x) acc then acc else acc ++ [x]) l [].

(** [Object.fromEntries(es)[k]]: a later entry for a key overrides an earlier one *)
Definition from_entries_get (es : list (nat * string)) (k : nat) : option string :=
  fold_left (fun acc e => if Nat.eqb (fst e) k then Some (snd e) else acc) es None.

(** [x || null] for an optional string *)
Definition or_null (o : option string) : option string :=
  if truthy o then o else None.

Section Messages.

(** the store's reading of the [sessionId] query text as a [session_id]
    value; [None] when it rejects the text *)
Variable pg_int : string -> option Z.
(** [Number(limit)] as the store accepts it in [.limit(..)]; [None] when it
    rejects the value (NaN, negative, fractional) *)
Variable limit_of : string -> option nat.

(** [const { limit = 100 } = req.query] and [.limit(Number(limit))] *)
Definition message_limit (limit : option string) : option nat :=
  match limit with
  | None => Some 100
  | Some s => limit_of s
  end.

(** [.eq("group_id", g)] and, when [sessionId] is truthy, [.eq("session_id", sessionId)]:
    [None] when the store rejects the session text *)
Definition message_filter (groupId : nat) (sessionId : option string) : option (message -> bool) :=
  match sessionId with
  | Some s =>
      if truthy (Some s) then
        match pg_int s with
        | Some k => Some (fun x => Nat.eqb (m_group_id x) groupId &&
                                   match m_session_id x with Some j => Z.eqb j k | None => false end)
        | None => None
        end
      else Some (fun x => Nat.eqb (m_group_id x) groupId)
  | None => Some (fun x => Nat.eqb (m_group_id x) groupId)
  end.

(** [router.get("/groups/:groupId/messages")] (lines 661-694) *)
Definition get_messages (verify : string -> verify_result) (hdr : option string)
    (groupId : nat) (sessionId limit : option string) (m : mdb) : msg_response :=
  match getUser verify hdr with
  | UThrow e => MInternal (EAuth e)
  | UNull => MStatus 401 "Unauthorized"
  | UUser user =>
      if negb (requireGroupMember (base m) groupId user) then MStatus 403 "Not a group member"
      else
        match message_limit limit, message_filter groupId sessionId with
        | Some n, Some keep =>
            let msgs := firstn n (sort_by_created_desc (filter keep (group_messages m))) in
            let senderIds := nat_set (map sender_id msgs) in
            let nameById :=
              match senderIds with
              | [] => []
              | _ => map (fun p => (pid p, full_name p))
                       (filter (fun p => existsb (Nat.eqb (pid p)) senderIds) (profiles (base m)))
              end in
            let enriched := map (fun x => (x, or_null (from_entries_get nameById (sender_id x)))) msgs in
            MMessages (rev enriched)
        | _, _ => MStoreError
        end
  end.

End Messages.

(** ** A concrete store: group 7 with A (1, the creator), B (2), C (3),
    D (4, no e-mail) and E (5); F (6) is not a member *)
Module Fixture.

Definition verify (t : string) : verify_result :=
  if String.eqb t "tok-a" then VUser 1
  else if String.eqb t "tok-b" then VUser 2
  else if String.eqb t "tok-f" then VUser 6
  else if String.eqb t "tok-down" then VError AuthRetryableFetchError
  else VError AuthApiError.

(** 2099-12-25T10:00:00Z *)
Definition T : Z := 4101876000000%Z.

Definition Date_parse (s : string) : option Z :=
  if String.eqb s "2099-12-25T10:00:00Z" then Some T else None.

(** the mail API refuses C's address *)
Definition mail_ok (to : string) : bool := negb (String.eqb to "c@x.org").

Definition store : db :=
  init_db [(7, 1); (7, 2); (7, 3); (7, 4); (7, 5)]
    [mkProfile 1 (Some "a@x.org") "A"; mkProfile 2 (Some "b@x.org") "B";
     mkProfile 3 (Some "c@x.org") "C"; mkProfile 4 None "D";
     mkProfile 5 (Some "e@x.org") "E"; mkProfile 6 (Some "f@x.org") "F"].

(** the same people, D left out: three members to invite besides A *)
Definition store3 : db :=
  init_db [(7, 1); (7, 2); (7, 3); (7, 5)] (profiles store).

Definition body_at (s : string) : create_body := mkCreateBody (Some s) None (Some "Rocq") None None.

(** A creates a session at T; the store then holds session 0 *)
Definition created : db :=
  snd (post_sessions Date_parse mail_ok 1000 verify (Some "Bearer tok-a") 7
         (body_at "2099-12-25T10:00:00Z") store).

(** B declines session 0 through [respond] *)
Definition declined_once : db :=
  snd (post_respond mail_ok 2000 verify (Some "Bearer tok-b") 7 0 (Some "declined") created).

End Fixture.

(** ** Further concrete stores *)
Module LinkFixture.

(** a store that refuses a row whose session or user has no row *)
Definition fk_rejected (ss : list session) (ps : list profile) (sid uid : nat) : bool :=
  negb (existsb (fun s => Nat.eqb (id s) sid) ss && existsb (fun p => Nat.eqb (pid p) uid) ps).

(** B accepts session 0 through the e-mail link *)
Definition accepted_link : db :=
  snd (get_accept fk_rejected 2000 0 2 Fixture.created).

(** after that, A creates session 1 at the same instant T *)
Definition created_again : db :=
  snd (post_sessions Fixture.Date_parse Fixture.mail_ok 3000 Fixture.verify (Some "Bearer tok-a") 7
         (Fixture.body_at "2099-12-25T10:00:00Z") accepted_link).

End LinkFixture.

Module MsgFixture.

Definition pg_int (s : string) : option Z := if String.eqb s "1" then Some 1%Z else None.

Definition limit_of (s : string) : option nat := if String.eqb s "1" then Some 1 else None.

(** B's message about session 1, at time 10 *)
Definition msg_b : message := mkMessage 0 7 (Some 1%Z) 2 (Some "hi") None 10.

(** A's message, at time 20 *)
Definition msg_a : message := mkMessage 1 7 None 1 (Some "yo") None 20.

(** group 7 of [Fixture.store] with its two messages *)
Definition mstore : mdb := mkMdb Fixture.store [msg_b; msg_a] 2.

End MsgFixture.

Definition invite_key (i : invite) : nat * nat := (session_id i, user_id i).

(** the store invariant kept by creations and responses: no invite is
    accepted, since creations write pending invites and [respond] writes
    only [declined] *)
Definition store_wf (d : db) : Prop :=
  Forall (fun s => id s < next_id d) (sessions d) /\
  Forall (fun i => session_id i < next_id d) (session_invites d) /\
  NoDup (map invite_key (session_invites d)) /\
  (forall u t, accepted_at d u t = 0).

(** ** Lemmas on the store *)

Lemma rsvp_eqb_true (a b : rsvp) : rsvp_eqb a b = true <-> a = b.
Proof. destruct a, b; simpl; split; congruence. Qed.

Lemma same_key_true (x r : invite) : same_key x r = true <-> invite_key r = invite_key x.
Proof.
  unfold same_key, invite_key. rewrite andb_true_iff, !Nat.eqb_eq.
  split; [intros [-> ->]; reflexivity | intros H; inversion H; auto].
Qed.

Lemma filter_and_le {A} (p q : A -> bool) (l : list A) :
  length (filter (fun r => p r && q r) l) <= length (filter p l).
Proof.
  induction l as [|a l IH]; simpl; [lia|].
  destruct (p a), (q a); simpl; lia.
Qed.

Lemma filter_length_app {A} (p : A -> bool) (l1 l2 : list A) :
  length (filter p (l1 ++ l2)) = length (filter p l1) + length (filter p l2).
Proof. rewrite filter_app, length_app. reflexivity. Qed.

Lemma count_replace (p : invite -> bool) (x : invite) (l : list invite) :
  length (filter p (map (fun r => if same_key x r then x else r) l)) =
  length (filter (fun r => p r && negb (same_key x r)) l) +
  (if p x then length (filter (same_key x) l) else 0).
Proof.
  induction l as [|r l IH]; simpl; [destruct (p x); reflexivity|].
  destruct (same_key x r) eqn:E; simpl.
  - rewrite andb_false_r. destruct (p x); simpl; rewrite IH; lia.
  - rewrite andb_true_r. destruct (p r); simpl; rewrite IH; lia.
Qed.

Lemma filter_none {A} (p : A -> bool) (l : list A) :
  (forall y, In y l -> p y = false) -> filter p l = [].
Proof.
  induction l as [|a l IH]; simpl; intros H; [reflexivity|].
  rewrite (H a (or_introl eq_refl)). apply IH. auto.
Qed.

Lemma same_key_count_le1 (x : invite) (l : list invite) :
  NoDup (map invite_key l) -> length (filter (same_key x) l) <= 1.
Proof.
  induction l as [|r l IH]; simpl; intros Hnd; [lia|].
  inversion Hnd as [|? ? Hnotin Hnd']; subst.
  destruct (same_key x r) eqn:E; simpl; [|auto].
  apply same_key_true in E.
  rewrite filter_none; [simpl; lia|].
  intros y Hy. destruct (same_key x y) eqn:Ey; [|reflexivity].
  apply same_key_true in Ey. exfalso. apply Hnotin.
  rewrite E, <- Ey. apply in_map. exact Hy.
Qed.

(** the invariant only reads [sessions], [session_invites] and [next_id] *)
Lemma store_wf_ext (d d' : db) :
  sessions d' = sessions d -> session_invites d' = session_invites d -> next_id d' = next_id d ->
  store_wf d -> store_wf d'.
Proof.
  intros Hs Hi Hn (H1 & H2 & H3 & H4). unfold store_wf, accepted_at, booked, session_starts_at, find_session in *.
  rewrite Hs, Hi, Hn. repeat split; auto.
Qed.

Lemma log_queries_tables (d : db) (qs : list query) :
  sessions (log_queries d qs) = sessions d /\ session_invites (log_queries d qs) = session_invites d /\
  next_id (log_queries d qs) = next_id d /\ group_members (log_queries d qs) = group_members d /\
  profiles (log_queries d qs) = profiles d.
Proof. repeat split. Qed.

Lemma alert_creator_tables (mail_ok : string -> bool) (d : db) (c m : nat) :
  let d' := alert_creator mail_ok d c m in
  sessions d' = sessions d /\ session_invites d' = session_invites d /\
  next_id d' = next_id d /\ group_members d' = group_members d /\ profiles d' = profiles d /\
  query_log d' = query_log d.
Proof.
  unfold alert_creator. destruct (find_profile d c) as [cp|]; [|repeat split].
  destruct (email cp) as [e|]; [|repeat split].
  destruct (truthy (Some e)); repeat split.
Qed.

Lemma find_session_sessions (d d' : db) (sid : nat) :
  sessions d' = sessions d -> find_session d' sid = find_session d sid.
Proof. unfold find_session. intros ->. reflexivity. Qed.

Lemma find_app_other (s : session) (l : list session) (k : nat) :
  k <> id s ->
  find (fun x => Nat.eqb (id x) k) (l ++ [s]) = find (fun x => Nat.eqb (id x) k) l.
Proof.
  intros Hk. induction l as [|a l IH]; simpl.
  - destruct (Nat.eqb_spec (id s) k); [congruence|reflexivity].
  - destruct (Nat.eqb (id a) k); [reflexivity|exact IH].
Qed.

Lemma NoDup_snoc {A} (l : list A) (a : A) : NoDup l -> ~ In a l -> NoDup (l ++ [a]).
Proof.
  induction l as [|b l IH]; simpl; intros Hnd Hn.
  - constructor; [auto|constructor].
  - inversion Hnd as [|? ? Hb Hnd']; subst. constructor.
    + rewrite in_app_iff. simpl. intros [H|[H|H]]; [auto|apply Hn; auto|auto].
    + apply IH; auto.
Qed.

Lemma upsert_invite_other_fields (d : db) (x : invite) :
  sessions (upsert_invite d x) = sessions d /\ next_id (upsert_invite d x) = next_id d /\
  group_members (upsert_invite d x) = group_members d /\ profiles (upsert_invite d x) = profiles d.
Proof. unfold upsert_invite. destruct (existsb _ _); repeat split. Qed.

Lemma upsert_count (p : invite -> bool) (d : db) (x : invite) :
  NoDup (map invite_key (session_invites d)) ->
  length (filter p (session_invites (upsert_invite d x))) <=
  length (filter (fun r => p r && negb (same_key x r)) (session_invites d)) + (if p x then 1 else 0).
Proof.
  intros Hnd. unfold upsert_invite.
  destruct (existsb (same_key x) (session_invites d)) eqn:E; simpl.
  - rewrite count_replace. pose proof (same_key_count_le1 x _ Hnd). destruct (p x); lia.
  - rewrite filter_length_app. simpl.
    assert (Hall : forall r, In r (session_invites d) -> same_key x r = false).
    { intros r Hr. destruct (same_key x r) eqn:Er; [|reflexivity].
      assert (existsb (same_key x) (session_invites d) = true) by (apply existsb_exists; eauto).
      congruence. }
    rewrite (filter_ext_in (fun r => p r && negb (same_key x r)) p);
      [destruct (p x); simpl; lia|].
    intros r Hr. rewrite (Hall r Hr). apply andb_true_r.
Qed.

Lemma upsert_keys (d : db) (x : invite) :
  NoDup (map invite_key (session_invites d)) ->
  NoDup (map invite_key (session_invites (upsert_invite d x))).
Proof.
  intros Hnd. unfold upsert_invite.
  destruct (existsb (same_key x) (session_invites d)) eqn:E; simpl.
  - rewrite map_map.
    rewrite (map_ext_in _ invite_key); [exact Hnd|].
    intros r _. destruct (same_key x r) eqn:Er; [|reflexivity].
    apply same_key_true in Er. symmetry. exact Er.
  - rewrite map_app. apply NoDup_snoc; [exact Hnd|].
    intros Hin. apply in_map_iff in Hin as [r [Hk Hr]].
    assert (existsb (same_key x) (session_invites d) = true).
    { apply existsb_exists. exists r. split; [exact Hr|]. apply same_key_true. exact Hk. }
    congruence.
Qed.

Lemma upsert_ids (d : db) (x : invite) :
  session_id x < next_id d ->
  Forall (fun i => session_id i < next_id d) (session_invites d) ->
  Forall (fun i => session_id i < next_id d) (session_invites (upsert_invite d x)).
Proof.
  intros Hx Hf. unfold upsert_invite.
  destruct (existsb (same_key x) (session_invites d)); simpl.
  - apply Forall_map. eapply Forall_impl; [|exact Hf].
    intros r Hr. destruct (same_key x r); assumption.
  - apply Forall_app. split; [exact Hf|]. constructor; [exact Hx|constructor].
Qed.

Lemma booked_sessions (d d' : db) :
  sessions d' = sessions d -> booked d' = booked d.
Proof. intros H. unfold booked, session_starts_at, find_session. rewrite H. reflexivity. Qed.

(** an upsert of a row that is not accepted keeps the invariant *)
Lemma upsert_wf (d : db) (x : invite) (s : session) :
  store_wf d -> find_session d (session_id x) = Some s -> status x <> Accepted ->
  store_wf (upsert_invite d x).
Proof.
  intros (H1 & H2 & H3 & H4) Hf Hna.
  destruct (upsert_invite_other_fields d x) as (Es & En & _ & _).
  assert (Hx : session_id x < next_id d).
  { apply find_some in Hf as [Hs Hid]. apply Nat.eqb_eq in Hid. rewrite <- Hid.
    rewrite Forall_forall in H1. apply H1. exact Hs. }
  unfold store_wf. rewrite Es, En. repeat split.
  - exact H1.
  - apply upsert_ids; assumption.
  - apply upsert_keys. exact H3.
  - intros u t. unfold accepted_at. rewrite (booked_sessions d (upsert_invite d x) Es).
    assert (Hb : booked d u t x = false).
    { unfold booked. destruct (rsvp_eqb (status x) Accepted) eqn:Ea.
      - apply rsvp_eqb_true in Ea. contradiction.
      - rewrite andb_false_r. reflexivity. }
    pose proof (upsert_count (booked d u t) d x H3) as Hc. rewrite Hb in Hc.
    pose proof (filter_and_le (booked d u t) (fun r => negb (same_key x r)) (session_invites d)).
    specialize (H4 u t). unfold accepted_at in H4. lia.
Qed.

Lemma post_respond_wf (mail_ok : string -> bool) now verify hdr g sid st (d : db) :
  store_wf d -> store_wf (snd (post_respond mail_ok now verify hdr g sid st d)).
Proof.
  intros Hwf. unfold post_respond.
  destruct (getUser verify hdr) as [u| |e]; try exact Hwf.
  destruct (parse_status st) as [stt|]; [|exact Hwf].
  destruct (negb (requireGroupMember d g u)); [exact Hwf|].
  destruct (find_session d sid) as [s|] eqn:Ef; [|exact Hwf].
  destruct stt; simpl; try exact Hwf; apply (upsert_wf d _ s Hwf); try exact Ef; discriminate.
Qed.

Lemma insert_pending_wf (d : db) (x : invite) :
  store_wf d -> session_id x < next_id d -> status x = Pending -> store_wf (insert_invite d x).
Proof.
  intros (H1 & H2 & H3 & H4) Hx Hp. unfold insert_invite.
  destruct (existsb (same_key x) (session_invites d)) eqn:E; [repeat split; assumption|].
  unfold store_wf; simpl. repeat split.
  - exact H1.
  - apply Forall_app. split; [exact H2|]. constructor; [exact Hx|constructor].
  - rewrite map_app. apply NoDup_snoc; [exact H3|].
    intros Hin. apply in_map_iff in Hin as [r [Hk Hr]].
    assert (existsb (same_key x) (session_invites d) = true).
    { apply existsb_exists. exists r. split; [exact Hr|]. apply same_key_true. exact Hk. }
    congruence.
  - intros u t. specialize (H4 u t). unfold accepted_at in *. simpl.
    rewrite (booked_sessions d (set_invites d (session_invites d ++ [x])) eq_refl).
    rewrite filter_length_app. simpl.
    unfold booked at 2. rewrite Hp. simpl. rewrite andb_false_r. simpl. lia.
Qed.

Lemma send_mail_tables (mail_ok : string -> bool) (d : db) to k :
  let d' := send_mail mail_ok d to k in
  sessions d' = sessions d /\ session_invites d' = session_invites d /\
  next_id d' = next_id d /\ group_members d' = group_members d /\ profiles d' = profiles d /\
  query_log d' = query_log d.
Proof. repeat split. Qed.

Lemma fan_out_member_wf (mail_ok : string -> bool) (c : nat) (s : session) (m : profile) (d : db) :
  store_wf d -> id s < next_id d ->
  store_wf (fan_out_member mail_ok c s m d) /\
  sessions (fan_out_member mail_ok c s m d) = sessions d /\
  next_id (fan_out_member mail_ok c s m d) = next_id d.
Proof.
  intros Hwf Hs. unfold fan_out_member.
  destruct (email m) as [e|]; [|auto].
  destruct (negb (truthy (Some e))); [auto|].
  destruct (create_conflict_check d (pid m) (start_at s)) as [hc qs].
  destruct (log_queries_tables d qs) as (S1 & I1 & N1 & _).
  assert (Hwf1 : store_wf (log_queries d qs)) by (apply (store_wf_ext d); assumption).
  destruct hc.
  - destruct (alert_creator_tables mail_ok (log_queries d qs) c (pid m)) as (S2 & I2 & N2 & _).
    split; [apply (store_wf_ext (log_queries d qs)); assumption|]. split; congruence.
  - set (d2 := send_mail mail_ok (log_queries d qs) e (Invitation (id s) (pid m))).
    destruct (send_mail_tables mail_ok (log_queries d qs) e (Invitation (id s) (pid m)))
      as (S2 & I2 & N2 & _).
    assert (Hwf2 : store_wf d2) by (apply (store_wf_ext (log_queries d qs)); assumption).
    split.
    + apply insert_pending_wf; [exact Hwf2| |reflexivity]. simpl. unfold d2. congruence.
    + unfold insert_invite. destruct (existsb _ _); simpl; split; unfold d2; congruence.
Qed.

Lemma fan_out_wf (mail_ok : string -> bool) (c : nat) (s : session) (ms : list profile) (d : db) :
  store_wf d -> id s < next_id d ->
  store_wf (fan_out mail_ok c s ms d) /\
  sessions (fan_out mail_ok c s ms d) = sessions d /\
  next_id (fan_out mail_ok c s ms d) = next_id d.
Proof.
  revert d. induction ms as [|m ms IH]; simpl; intros d Hwf Hs; [auto|].
  destruct (fan_out_member_wf mail_ok c s m d Hwf Hs) as (W1 & S1 & N1).
  destruct (IH _ W1) as (W2 & S2 & N2); [congruence|].
  split; [exact W2|]. split; congruence.
Qed.

Lemma session_insert_wf (d : db) (s : session) :
  store_wf d -> id s = next_id d ->
  store_wf (set_next_id (set_sessions d (sessions d ++ [s])) (S (next_id d))).
Proof.
  intros (H1 & H2 & H3 & H4) Hid. unfold store_wf; simpl. repeat split.
  - apply Forall_app. split.
    + eapply Forall_impl; [|exact H1]. simpl. intros; lia.
    + constructor; [lia|constructor].
  - eapply Forall_impl; [|exact H2]. simpl. intros; lia.
  - exact H3.
  - intros u t. specialize (H4 u t). unfold accepted_at in *. simpl.
    rewrite (filter_ext_in _ (booked d u t)); [exact H4|].
    intros i Hi. rewrite Forall_forall in H2. specialize (H2 i Hi).
    unfold booked, session_starts_at, find_session. simpl.
    rewrite find_app_other; [reflexivity|lia].
Qed.

Lemma post_sessions_wf (Date_parse : string -> option Z) (mail_ok : string -> bool)
    now verify hdr g b (d : db) :
  store_wf d -> store_wf (snd (post_sessions Date_parse mail_ok now verify hdr g b d)).
Proof.
  intros Hwf. unfold post_sessions.
  destruct (getUser verify hdr) as [u| |e]; try exact Hwf.
  destruct (negb (requireGroupMember d g u)); [exact Hwf|].
  destruct (negb (truthy (b_start_at b))); [exact Hwf|].
  destruct (b_start_at b) as [raw|]; [|exact Hwf].
  destruct (Date_parse raw) as [starts|]; [|exact Hwf].
  destruct (Z.ltb starts now); [exact Hwf|].
  cbv zeta.
  set (s := mkSession (next_id d) g u starts (b_venue b) (b_topic b)
              (b_time_goal_minutes b) (b_content_goal b)).
  set (d1 := set_next_id (set_sessions d (sessions d ++ [s])) (S (next_id d))).
  assert (W1 : store_wf d1) by (apply session_insert_wf; [exact Hwf|reflexivity]).
  destruct (member_profiles d1 g u) as [|o os]; [exact W1|].
  destruct (all_profiles (o :: os)) as [ms|]; [|exact W1].
  simpl. apply fan_out_wf; [exact W1|]. simpl. lia.
Qed.

Lemma run_ops_wf (Date_parse : string -> option Z) (mail_ok : string -> bool)
    (os : list op) (d : db) :
  store_wf d -> store_wf (run_ops Date_parse mail_ok os d).
Proof.
  revert d. induction os as [|o os IH]; simpl; intros d Hwf; [exact Hwf|].
  apply IH. destruct o; simpl.
  - apply post_sessions_wf. exact Hwf.
  - apply post_respond_wf. exact Hwf.
Qed.

Lemma init_db_wf (members : list (nat * nat)) (ps : list profile) :
  store_wf (init_db members ps).
Proof.
  unfold store_wf, init_db, accepted_at; simpl. repeat split; constructor.
Qed.

Lemma upsert_in (d : db) (x : invite) : In x (session_invites (upsert_invite d x)).
Proof.
  unfold upsert_invite.
  destruct (existsb (same_key x) (session_invites d)) eqn:E; simpl.
  - apply existsb_exists in E as [r [Hr Er]].
    apply in_map_iff. exists r. rewrite Er. auto.
  - apply in_or_app. right. left. reflexivity.
Qed.

Lemma upsert_member (d : db) (x : invite) (g u : nat) :
  requireGroupMember (upsert_invite d x) g u = requireGroupMember d g u.
Proof. unfold requireGroupMember. destruct (upsert_invite_other_fields d x) as (_ & _ & -> & _). reflexivity. Qed.

Lemma upsert_find_session (d : db) (x : invite) (sid : nat) :
  find_session (upsert_invite d x) sid = find_session d sid.
Proof. apply find_session_sessions. apply upsert_invite_other_fields. Qed.

(** ** Claims *)

(** C1 (no double booking).  Starting from a store with no session, after
    any sequence of session creations and authenticated [respond] calls,
    every user holds at most one accepted invite per start instant.  In
    fact none: creations write pending invites, and every [accepted]
    response that reaches the conflict check fails with a TypeError before
    writing, so these operations never produce an accepted invite. *)
Theorem no_double_booking (Date_parse : string -> option Z) (mail_ok : string -> bool)
    (members : list (nat * nat)) (ps : list profile) (os : list op) (u : nat) (t : Z) :
  accepted_at (run_ops Date_parse mail_ok os (init_db members ps)) u t <= 1 /\
  accepted_at (run_ops Date_parse mail_ok os (init_db members ps)) u t = 0.
Proof.
  destruct (run_ops_wf Date_parse mail_ok os (init_db members ps) (init_db_wf members ps))
    as (_ & _ & _ & H). rewrite (H u t). split; [lia|reflexivity].
Qed.

Lemma extends_refl (d : db) : extends d d [] [] [].
Proof. unfold extends. rewrite !app_nil_r. repeat split. Qed.

Lemma extends_trans (d1 d2 d3 : db) ni1 nm1 nq1 ni2 nm2 nq2 :
  extends d1 d2 ni1 nm1 nq1 -> extends d2 d3 ni2 nm2 nq2 ->
  extends d1 d3 (ni1 ++ ni2) (nm1 ++ nm2) (nq1 ++ nq2).
Proof.
  unfold extends. intros (A1 & B1 & C1 & D1 & E1 & F1 & G1) (A2 & B2 & C2 & D2 & E2 & F2 & G2).
  rewrite A2, B2, C2, A1, B1, C1, !app_assoc. repeat split; congruence.
Qed.

Lemma alert_creator_extends (mail_ok : string -> bool) (d : db) (c m : nat) :
  exists nm, extends d (alert_creator mail_ok d c m) [] nm [] /\
             forall x, In x nm -> mail_about x = ConflictAlert m.
Proof.
  unfold alert_creator.
  destruct (find_profile d c) as [cp|]; [|exists []; split; [apply extends_refl|contradiction]].
  destruct (email cp) as [e|]; [|exists []; split; [apply extends_refl|contradiction]].
  destruct (truthy (Some e)); [|exists []; split; [apply extends_refl|contradiction]].
  exists [mkMail e (ConflictAlert m) (mail_ok e)]. split.
  - unfold extends, send_mail. simpl. rewrite !app_nil_r. repeat split.
  - intros x [<-|[]]. reflexivity.
Qed.

Lemma fan_out_member_extends (mail_ok : string -> bool) (c : nat) (s : session) (m : profile) (d : db) :
  exists ni nm nq, extends d (fan_out_member mail_ok c s m d) ni nm nq /\ fan_out_adds s m ni nm nq.
Proof.
  unfold fan_out_member, fan_out_adds.
  destruct (email m) as [e|] eqn:Em;
    [|exists [], [], []; split; [apply extends_refl|]; repeat split; auto; contradiction].
  destruct (truthy (Some e)) eqn:Et; simpl;
    [|exists [], [], []; split; [apply extends_refl|]; repeat split; auto; contradiction].
  destruct (create_conflict_check d (pid m) (start_at s)) as [hc qs] eqn:Ec.
  assert (Hq : forall q, In q qs -> q = QAcceptedInvites (pid m) \/ exists ids, q = QSessionsIn ids).
  { unfold create_conflict_check in Ec. destruct (accepted_session_ids d (pid m)) as [|a l];
      injection Ec as _ <-; simpl; intros q Hq; intuition eauto. }
  assert (Hl : extends d (log_queries d qs) [] [] qs).
  { unfold extends, log_queries. simpl. rewrite !app_nil_r. repeat split. }
  destruct hc.
  - destruct (alert_creator_extends mail_ok (log_queries d qs) c (pid m)) as [nm [Hx Hnm]].
    exists [], nm, qs. split.
    + pose proof (extends_trans _ _ _ _ _ _ _ _ _ Hl Hx) as H.
      simpl in H. rewrite app_nil_r in H. exact H.
    + repeat split; auto; [contradiction|]. intros x Hin. rewrite (Hnm x Hin). reflexivity.
  - set (x := mkInvite (id s) (pid m) Pending None).
    set (d2 := send_mail mail_ok (log_queries d qs) e (Invitation (id s) (pid m))).
    assert (H2 : extends d d2 [] [mkMail e (Invitation (id s) (pid m)) (mail_ok e)] qs).
    { unfold extends, d2, send_mail, log_queries. simpl. rewrite !app_nil_r. repeat split. }
    unfold insert_invite.
    destruct (existsb _ _).
    + exists [], [mkMail e (Invitation (id s) (pid m)) (mail_ok e)], qs.
      split; [exact H2|]. repeat split; auto; [contradiction|].
      intros y [<-|[]]. reflexivity.
    + exists [x], [mkMail e (Invitation (id s) (pid m)) (mail_ok e)], qs. split.
      * unfold extends, d2, send_mail, log_queries. simpl. rewrite ?app_nil_r. repeat split.
      * repeat split; auto.
        -- intros i [<-|[]]. reflexivity.
        -- intros y [<-|[]]. reflexivity.
Qed.

Lemma fan_out_extends (mail_ok : string -> bool) (c : nat) (s : session) (ms : list profile) (d : db) :
  exists ni nm nq, extends d (fan_out mail_ok c s ms d) ni nm nq /\
    (forall i, In i ni -> exists m, In m ms /\ truthy (email m) = true /\
                                    i = mkInvite (id s) (pid m) Pending None) /\
    (forall x, In x nm -> exists m, In m ms /\ truthy (email m) = true /\
                                    mail_member (mail_about x) = pid m) /\
    (forall q, In q nq -> exists m, In m ms /\ truthy (email m) = true /\
                          (q = QAcceptedInvites (pid m) \/ exists ids, q = QSessionsIn ids)).
Proof.
  revert d. induction ms as [|m ms IH]; simpl; intros d.
  - exists [], [], []. split; [apply extends_refl|]. repeat split; contradiction.
  - destruct (fan_out_member_extends mail_ok c s m d) as (ni1 & nm1 & nq1 & H1 & Ha).
    destruct (IH (fan_out_member mail_ok c s m d)) as (ni2 & nm2 & nq2 & H2 & Hi & Hm & Hq).
    exists (ni1 ++ ni2), (nm1 ++ nm2), (nq1 ++ nq2).
    split; [eapply extends_trans; eauto|].
    destruct Ha as (Hor & Ai & Am & Aq).
    repeat split.
    + intros i Hin. apply in_app_iff in Hin as [Hin|Hin].
      * exists m. destruct Hor as [(-> & _ & _)|Ht]; [contradiction|]. auto.
      * destruct (Hi i Hin) as (m' & ? & ?). exists m'. auto.
    + intros x Hin. apply in_app_iff in Hin as [Hin|Hin].
      * exists m. destruct Hor as [(_ & -> & _)|Ht]; [contradiction|]. auto.
      * destruct (Hm x Hin) as (m' & ? & ?). exists m'. auto.
    + intros q Hin. apply in_app_iff in Hin as [Hin|Hin].
      * exists m. destruct Hor as [(_ & _ & ->)|Ht]; [contradiction|]. auto.
      * destruct (Hq q Hin) as (m' & ? & ?). exists m'. auto.
Qed.

Lemma fan_out_sessions (mail_ok : string -> bool) (c : nat) (s : session) (ms : list profile) (d : db) :
  sessions (fan_out mail_ok c s ms d) = sessions d /\ next_id (fan_out mail_ok c s ms d) = next_id d.
Proof.
  destruct (fan_out_extends mail_ok c s ms d) as (ni & nm & nq & (_ & _ & _ & Hs & Hn & _) & _).
  auto.
Qed.

(** C3 (future-only creation), refuted at the boundary: a [start_at] equal
    to the wall-clock time of validation is accepted and the session is
    created, since the code only rejects [starts < new Date()]. *)
Lemma create_at_now_accepted :
  Fixture.Date_parse "2099-12-25T10:00:00Z" = Some Fixture.T /\
  fst (post_sessions Fixture.Date_parse Fixture.mail_ok Fixture.T Fixture.verify (Some "Bearer tok-a") 7
         (Fixture.body_at "2099-12-25T10:00:00Z") Fixture.store) =
    Json (BSession (mkSession 0 7 1 Fixture.T None (Some "Rocq") None None)).
Proof. split; vm_compute; reflexivity. Qed.

(** C3 (as the code does it).  For an authenticated group member: a falsy
    [start_at] gives 400 "start_at is required", an unparseable one 400
    "Invalid start_at", one strictly before [now] 400 "start_at cannot be in
    the past", each leaving the store unchanged; a parseable [start_at] at or
    after [now] is persisted with the store-assigned id [next_id] and, when
    every other member row joins a profile, returned.  The three messages
    differ. *)
Theorem create_start_at_validation (Date_parse : string -> option Z) (mail_ok : string -> bool)
    (now : Z) (verify : string -> verify_result) (hdr : option string) (g : nat) (b : create_body)
    (d : db) (u : nat) :
  getUser verify hdr = UUser u -> requireGroupMember d g u = true ->
  let r := post_sessions Date_parse mail_ok now verify hdr g b d in
  (truthy (b_start_at b) = false -> r = (Status 400 msg_required, d)) /\
  (forall raw, b_start_at b = Some raw -> truthy (Some raw) = true -> Date_parse raw = None ->
     r = (Status 400 msg_invalid, d)) /\
  (forall raw t, b_start_at b = Some raw -> truthy (Some raw) = true -> Date_parse raw = Some t ->
     (t < now)%Z -> r = (Status 400 msg_past, d)) /\
  (forall raw t, b_start_at b = Some raw -> truthy (Some raw) = true -> Date_parse raw = Some t ->
     (now <= t)%Z ->
     let s := mkSession (next_id d) g u t (b_venue b) (b_topic b) (b_time_goal_minutes b)
                (b_content_goal b) in
     In s (sessions (snd r)) /\ next_id (snd r) = S (next_id d) /\
     (all_profiles (member_profiles d g u) <> None -> fst r = Json (BSession s))) /\
  msg_required <> msg_invalid /\ msg_required <> msg_past /\ msg_invalid <> msg_past.
Proof.
  intros Hu Hm r. unfold r, post_sessions. rewrite Hu, Hm.
  split; [intros ->; reflexivity|].
  split; [intros raw Hb Ht Hp; rewrite Hb, Ht; simpl; rewrite Hp; reflexivity|].
  split; [intros raw t Hb Ht Hp Hlt; rewrite Hb, Ht; simpl; rewrite Hp;
          apply Z.ltb_lt in Hlt; rewrite Hlt; reflexivity|].
  split; [|unfold msg_required, msg_invalid, msg_past; repeat split; discriminate].
  intros raw t Hb Ht Hp Hle. rewrite Hb, Ht. simpl. rewrite Hp. cbv zeta.
  assert (Hge : Z.ltb t now = false) by (apply Z.ltb_ge; exact Hle). rewrite Hge.
  set (s := mkSession (next_id d) g u t (b_venue b) (b_topic b) (b_time_goal_minutes b)
              (b_content_goal b)).
  set (d1 := set_next_id (set_sessions d (sessions d ++ [s])) (S (next_id d))).
  assert (Hs1 : In s (sessions d1)) by (simpl; apply in_or_app; right; left; reflexivity).
  change (member_profiles d1 g u) with (member_profiles d g u).
  destruct (member_profiles d g u) as [|o os]; [simpl; auto|].
  destruct o as [p|]; [destruct (all_profiles os) as [ps|] eqn:Eos|]; cbn [fst snd].
  - destruct (fan_out_sessions mail_ok u s (p :: ps) d1) as [-> ->]. auto.
  - split; [exact Hs1|]. split; [reflexivity|].
    intros H; exfalso; apply H; simpl; rewrite Eos; reflexivity.
  - split; [exact Hs1|]. split; [reflexivity|]. intros H; exfalso; apply H; reflexivity.
Qed.

Lemma create_start_at_validation_witness :
  getUser Fixture.verify (Some "Bearer tok-a") = UUser 1 /\ requireGroupMember Fixture.store 7 1 = true /\
  fst (post_sessions Fixture.Date_parse Fixture.mail_ok 1000 Fixture.verify (Some "Bearer tok-a") 7
         (Fixture.body_at "2099-12-25T10:00:00Z") Fixture.store) =
    Json (BSession (mkSession 0 7 1 Fixture.T None (Some "Rocq") None None)).
Proof.
  assert (Hu : getUser Fixture.verify (Some "Bearer tok-a") = UUser 1) by (vm_compute; reflexivity).
  assert (Hm : requireGroupMember Fixture.store 7 1 = true) by (vm_compute; reflexivity).
  split; [exact Hu|]. split; [exact Hm|].
  destruct (create_start_at_validation Fixture.Date_parse Fixture.mail_ok 1000 Fixture.verify
              (Some "Bearer tok-a") 7 (Fixture.body_at "2099-12-25T10:00:00Z") Fixture.store 1 Hu Hm)
    as (_ & _ & _ & H & _).
  destruct (H "2099-12-25T10:00:00Z" Fixture.T eq_refl) as (_ & _ & Hr).
  - vm_compute. reflexivity.
  - vm_compute. reflexivity.
  - unfold Fixture.T. lia.
  - apply Hr. vm_compute. discriminate.
Defined.

(** C4 (401 versus 500), refuted: a token the verifier rejects (an auth
    error answer) is thrown by [getUser] and ends in 500, exactly like an
    unreachable verifier; only a missing token or a verifier answer with no
    user gives 401. *)
Lemma rejected_token_is_500 :
  Fixture.verify "expired" = VError AuthApiError /\
  Fixture.verify "tok-down" = VError AuthRetryableFetchError /\
  http_code (fst (post_sessions Fixture.Date_parse Fixture.mail_ok 1000 Fixture.verify
                    (Some "Bearer expired") 7 (Fixture.body_at "2099-12-25T10:00:00Z") Fixture.store)) = 500 /\
  http_code (fst (post_sessions Fixture.Date_parse Fixture.mail_ok 1000 Fixture.verify
                    (Some "Bearer tok-down") 7 (Fixture.body_at "2099-12-25T10:00:00Z") Fixture.store)) = 500.
Proof. repeat split; vm_compute; reflexivity. Qed.

(** C4 (as the code does it).  [getUser] yields no user exactly when the
    header carries no non-empty bearer token or the verifier answers with no
    user; every verifier error, whether a rejected token or a transport
    failure, is thrown.  [getUserOrService] without an API key behaves the
    same.  The session routes answer 401 for no user and 500 for a thrown
    verifier error. *)
Theorem identity_outcomes (verify : string -> verify_result) (hdr : option string) :
  (getUser verify hdr = UNull <->
     truthy (bearer_token hdr) = false \/
     exists t, bearer_token hdr = Some t /\ truthy (Some t) = true /\ verify t = VNoUser) /\
  (forall t e, bearer_token hdr = Some t -> truthy (Some t) = true -> verify t = VError e ->
     getUser verify hdr = UThrow e) /\
  (forall sk, getUserOrService sk None verify hdr = getUser verify hdr) /\
  (forall (Date_parse : string -> option Z) (mail_ok : string -> bool) now g sid b st d,
     (getUser verify hdr = UNull ->
        http_code (fst (post_sessions Date_parse mail_ok now verify hdr g b d)) = 401 /\
        http_code (fst (post_respond mail_ok now verify hdr g sid st d)) = 401 /\
        http_code (fst (delete_session verify hdr g sid d)) = 401 /\
        http_code (get_sessions verify hdr g d) = 401) /\
     (forall e, getUser verify hdr = UThrow e ->
        http_code (fst (post_sessions Date_parse mail_ok now verify hdr g b d)) = 500 /\
        http_code (fst (post_respond mail_ok now verify hdr g sid st d)) = 500 /\
        http_code (fst (delete_session verify hdr g sid d)) = 500 /\
        http_code (get_sessions verify hdr g d) = 500)).
Proof.
  split; [|split; [|split]].
  - unfold getUser. destruct (bearer_token hdr) as [t|]; simpl.
    + destruct (negb (t =? "")%string) eqn:Et; simpl.
      * destruct (verify t) eqn:Ev; split; intros H; try discriminate H; eauto.
        -- destruct H as [H|(t' & Ht' & _ & Hv)]; [discriminate H|].
           injection Ht' as <-. congruence.
        -- destruct H as [H|(t' & Ht' & _ & Hv)]; [discriminate H|].
           injection Ht' as <-. congruence.
      * split; auto.
    + split; auto.
  - intros t e Hb Ht Hv. unfold getUser. rewrite Hb, Ht. simpl. rewrite Hv. reflexivity.
  - intros sk. reflexivity.
  - intros Date_parse mail_ok now g sid b st d. split.
    + intros H. unfold post_sessions, post_respond, delete_session, get_sessions.
      rewrite H. repeat split.
    + intros e H. unfold post_sessions, post_respond, delete_session, get_sessions.
      rewrite H. repeat split.
Qed.

Lemma identity_outcomes_witness :
  getUser Fixture.verify (Some "Bearer expired") = UThrow AuthApiError /\
  http_code (fst (delete_session Fixture.verify (Some "Bearer expired") 7 0 Fixture.store)) = 500 /\
  http_code (fst (delete_session Fixture.verify None 7 0 Fixture.store)) = 401.
Proof.
  destruct (identity_outcomes Fixture.verify (Some "Bearer expired")) as (_ & Ht & _ & Hr).
  destruct (identity_outcomes Fixture.verify None) as ([_ Hn] & _ & _ & Hr').
  assert (He : getUser Fixture.verify (Some "Bearer expired") = UThrow AuthApiError).
  { apply (Ht "expired"); vm_compute; reflexivity. }
  split; [exact He|]. split.
  - destruct (Hr Fixture.Date_parse Fixture.mail_ok 0%Z 7 0 (Fixture.body_at "x") None Fixture.store)
      as (_ & H5). apply (H5 AuthApiError He).
  - destruct (Hr' Fixture.Date_parse Fixture.mail_ok 0%Z 7 0 (Fixture.body_at "x") None Fixture.store)
      as (H4 & _). apply H4. apply Hn. left. vm_compute. reflexivity.
Defined.

Lemma insert_by_start_in (x s : session) (l : list session) :
  In x (insert_by_start s l) -> x = s \/ In x l.
Proof.
  induction l as [|a l IH]; simpl; [intuition|].
  destruct (Z.leb (start_at s) (start_at a)); simpl; [intuition|].
  intros [H|H]; [auto|]. destruct (IH H); auto.
Qed.

Lemma sort_by_start_in (x : session) (l : list session) :
  In x (sort_by_start l) -> In x l.
Proof.
  induction l as [|a l IH]; simpl; [auto|].
  intros H. apply insert_by_start_in in H as [H|H]; auto.
Qed.

(** C5 (delete semantics), as the code does it.  For an authenticated
    group member, deleting a session that does not exist fails with 500 and
    changes nothing: the [.single()] lookup answers the error [PGRST116],
    which [if (sErr) throw sErr] rethrows, so the 404 branch is never
    reached.  A session created by someone else gives 403 and stays
    stored; the creator gets 200, after which no listing of any group
    contains the session. *)
Theorem delete_missing_session_500 (verify : string -> verify_result) (hdr : option string)
    (g sid : nat) (d : db) (u : nat) :
  getUser verify hdr = UUser u -> requireGroupMember d g u = true ->
  (find_session d sid = None ->
     delete_session verify hdr g sid d = (Internal (EStore "PGRST116"), d) /\
     http_code (fst (delete_session verify hdr g sid d)) = 500) /\
  (forall s, find_session d sid = Some s -> creator_id s <> u ->
     delete_session verify hdr g sid d = (Status 403 "Only the creator can delete", d) /\
     In s (sessions (snd (delete_session verify hdr g sid d)))) /\
  (forall s, find_session d sid = Some s -> creator_id s = u ->
     fst (delete_session verify hdr g sid d) = Json (BMessage "Session deleted") /\
     forall verify' hdr' g' l,
       get_sessions verify' hdr' g' (snd (delete_session verify hdr g sid d)) = Json (BSessions l) ->
       forall x, In x l -> id x <> sid).
Proof.
  intros Hu Hm. unfold delete_session. rewrite Hu, Hm. simpl.
  split; [intros ->; split; reflexivity|]. split.
  - intros s Hf Hc. rewrite Hf. apply Nat.eqb_neq in Hc. rewrite Hc. simpl.
    split; [reflexivity|]. apply find_some in Hf as [Hs _]. exact Hs.
  - intros s Hf Hc. rewrite Hf. rewrite Hc, Nat.eqb_refl. simpl.
    split; [reflexivity|].
    intros verify' hdr' g' l Hl x Hx. unfold get_sessions in Hl.
    destruct (getUser verify' hdr') as [u'| |e]; try discriminate Hl.
    destruct (negb _); [discriminate Hl|]. injection Hl as <-.
    apply sort_by_start_in in Hx. apply filter_In in Hx as [Hx _].
    unfold delete_rows in Hx. simpl in Hx. apply filter_In in Hx as [_ Hx].
    apply negb_true_iff, Nat.eqb_neq in Hx. exact Hx.
Qed.

Lemma delete_missing_session_500_witness :
  delete_session Fixture.verify (Some "Bearer tok-a") 7 0 Fixture.store =
    (Internal (EStore "PGRST116"), Fixture.store) /\
  fst (delete_session Fixture.verify (Some "Bearer tok-a") 7 0 Fixture.created) =
    Json (BMessage "Session deleted").
Proof.
  assert (Hu : getUser Fixture.verify (Some "Bearer tok-a") = UUser 1) by (vm_compute; reflexivity).
  split.
  - assert (Hm : requireGroupMember Fixture.store 7 1 = true) by (vm_compute; reflexivity).
    destruct (delete_missing_session_500 Fixture.verify (Some "Bearer tok-a") 7 0 Fixture.store 1 Hu Hm)
      as (H & _ & _).
    apply H. vm_compute. reflexivity.
  - assert (Hm : requireGroupMember Fixture.created 7 1 = true) by (vm_compute; reflexivity).
    destruct (delete_missing_session_500 Fixture.verify (Some "Bearer tok-a") 7 0 Fixture.created 1 Hu Hm)
      as (_ & _ & H).
    destruct (H (mkSession 0 7 1 Fixture.T None (Some "Rocq") None None)) as [H1 _];
      [vm_compute; reflexivity|reflexivity|].
    exact H1.
Defined.

(** C6 (membership before status), refuted: the status is validated first,
    so a non-member sending an invalid status gets 400, not 403. *)
Lemma non_member_invalid_status_is_400 :
  requireGroupMember Fixture.store 7 6 = false /\
  fst (post_respond Fixture.mail_ok 1000 Fixture.verify (Some "Bearer tok-f") 7 0 (Some "maybe")
         Fixture.created) = Status 400 "Invalid status".
Proof. split; vm_compute; reflexivity. Qed.

(** C6 (as the code does it).  For an authenticated caller of [respond], a
    status other than "accepted" or "declined" gives 400 whatever the
    caller's membership; a valid status from a non-member gives 403.  Both
    leave the store unchanged. *)
Theorem respond_status_before_membership (mail_ok : string -> bool) (now : Z)
    (verify : string -> verify_result) (hdr : option string) (g sid : nat) (st : option string)
    (d : db) (u : nat) :
  getUser verify hdr = UUser u ->
  (parse_status st = None ->
     post_respond mail_ok now verify hdr g sid st d = (Status 400 "Invalid status", d)) /\
  (parse_status st <> None -> requireGroupMember d g u = false ->
     post_respond mail_ok now verify hdr g sid st d = (Status 403 "Not a group member", d)).
Proof.
  intros Hu. unfold post_respond. rewrite Hu. split.
  - intros ->. reflexivity.
  - intros Hs Hm. destruct (parse_status st); [|contradiction]. rewrite Hm. reflexivity.
Qed.

Lemma respond_status_before_membership_witness :
  post_respond Fixture.mail_ok 1000 Fixture.verify (Some "Bearer tok-f") 7 0 (Some "maybe")
    Fixture.created = (Status 400 "Invalid status", Fixture.created) /\
  post_respond Fixture.mail_ok 1000 Fixture.verify (Some "Bearer tok-f") 7 0 (Some "declined")
    Fixture.created = (Status 403 "Not a group member", Fixture.created).
Proof.
  assert (Hu : getUser Fixture.verify (Some "Bearer tok-f") = UUser 6) by (vm_compute; reflexivity).
  split.
  - apply (respond_status_before_membership Fixture.mail_ok 1000 Fixture.verify (Some "Bearer tok-f")
             7 0 (Some "maybe") Fixture.created 6 Hu). reflexivity.
  - apply (respond_status_before_membership Fixture.mail_ok 1000 Fixture.verify (Some "Bearer tok-f")
             7 0 (Some "declined") Fixture.created 6 Hu); [discriminate|vm_compute; reflexivity].
Defined.

(** C7 (membership gate precedes creation).  A create request by an
    authenticated non-member gets 403 and writes neither [sessions] nor
    [session_invites]: the store is returned unchanged. *)
Theorem create_non_member_no_writes (Date_parse : string -> option Z) (mail_ok : string -> bool)
    (now : Z) (verify : string -> verify_result) (hdr : option string) (g : nat) (b : create_body)
    (d : db) (u : nat) :
  getUser verify hdr = UUser u -> requireGroupMember d g u = false ->
  post_sessions Date_parse mail_ok now verify hdr g b d = (Status 403 "Not a group member", d) /\
  sessions (snd (post_sessions Date_parse mail_ok now verify hdr g b d)) = sessions d /\
  session_invites (snd (post_sessions Date_parse mail_ok now verify hdr g b d)) = session_invites d.
Proof.
  intros Hu Hm. unfold post_sessions. rewrite Hu, Hm. simpl. repeat split.
Qed.

Lemma create_non_member_no_writes_witness :
  post_sessions Fixture.Date_parse Fixture.mail_ok 1000 Fixture.verify (Some "Bearer tok-f") 7
    (Fixture.body_at "2099-12-25T10:00:00Z") Fixture.store = (Status 403 "Not a group member", Fixture.store).
Proof.
  apply (create_non_member_no_writes Fixture.Date_parse Fixture.mail_ok 1000 Fixture.verify
           (Some "Bearer tok-f") 7 (Fixture.body_at "2099-12-25T10:00:00Z") Fixture.store 6);
    vm_compute; reflexivity.
Defined.

Lemma sessions_in_nil (d : db) : sessions_in d [] = [].
Proof. unfold sessions_in. apply filter_none. reflexivity. Qed.

Lemma create_check_fst (d : db) (u : nat) (t : Z) :
  fst (create_conflict_check d u t) =
  existsb (fun c => Z.eqb (start_at c) t) (sessions_in d (accepted_session_ids d u)).
Proof.
  unfold create_conflict_check.
  destruct (accepted_session_ids d u) as [|a l] eqn:E; simpl; [|reflexivity].
  rewrite sessions_in_nil. reflexivity.
Qed.

Lemma accepted_sessions_at_spec (d : db) (u : nat) (t : Z) :
  existsb (fun c => Z.eqb (start_at c) t) (sessions_in d (accepted_session_ids d u)) = true <->
  exists i s, In i (session_invites d) /\ user_id i = u /\ status i = Accepted /\
              In s (sessions d) /\ id s = session_id i /\ start_at s = t.
Proof.
  unfold sessions_in, accepted_session_ids.
  rewrite existsb_exists. split.
  - intros (s & Hs & Ht). apply filter_In in Hs as [Hs Hk].
    apply existsb_exists in Hk as (k & Hk & Hid). apply Nat.eqb_eq in Hid.
    apply in_map_iff in Hk as (i & Hki & Hi). apply filter_In in Hi as [Hi Hp].
    apply andb_true_iff in Hp as [Hu Ha]. apply Nat.eqb_eq in Hu. apply rsvp_eqb_true in Ha.
    apply Z.eqb_eq in Ht. exists i, s. repeat split; congruence.
  - intros (i & s & Hi & Hu & Ha & Hs & Hid & Ht). exists s. split; [|apply Z.eqb_eq; exact Ht].
    apply filter_In. split; [exact Hs|]. apply existsb_exists. exists (session_id i).
    split; [|apply Nat.eqb_eq; exact Hid]. apply in_map. apply filter_In. split; [exact Hi|].
    rewrite Hu, Ha, Nat.eqb_refl. reflexivity.
Qed.

(** C8 (exact-instant conflicts), as the code does it.  The check of the
    creation fan-out answers true exactly when some session row whose id is
    that of one of the user's accepted invites starts at exactly the
    candidate instant, and with no accepted invite it answers false after
    reading only the invites.  The check of [respond] never answers: when a
    member accepts an existing session, building its read throws a
    TypeError, the route answers 500, and the store, the reads and the
    mails are left as they were, whatever the caller's accepted invites; in
    particular with none, where the check should answer false and let the
    acceptance through. *)
Theorem conflict_check_as_coded (d : db) (u : nat) (t : Z) :
  let booked_at := exists i s, In i (session_invites d) /\ user_id i = u /\ status i = Accepted /\
                               In s (sessions d) /\ id s = session_id i /\ start_at s = t in
  (fst (create_conflict_check d u t) = true <-> booked_at) /\
  (accepted_session_ids d u = [] -> create_conflict_check d u t = (false, [QAcceptedInvites u])) /\
  (forall mail_ok now verify hdr g sid s,
     getUser verify hdr = UUser u -> requireGroupMember d g u = true ->
     find_session d sid = Some s -> start_at s = t ->
     post_respond mail_ok now verify hdr g sid (Some "accepted") d = (Internal ETypeError, d) /\
     http_code (fst (post_respond mail_ok now verify hdr g sid (Some "accepted") d)) = 500).
Proof.
  intros booked_at. split; [rewrite create_check_fst; apply accepted_sessions_at_spec|]. split.
  - intros H. unfold create_conflict_check. rewrite H. reflexivity.
  - intros mail_ok now verify hdr g sid s Hu Hm Hf _. unfold post_respond.
    rewrite Hu, Hm, Hf. split; reflexivity.
Qed.

Lemma conflict_check_as_coded_witness :
  create_conflict_check Fixture.created 2 Fixture.T = (false, [QAcceptedInvites 2]) /\
  post_respond Fixture.mail_ok 2000 Fixture.verify (Some "Bearer tok-b") 7 0 (Some "accepted")
    Fixture.created = (Internal ETypeError, Fixture.created).
Proof.
  assert (H0 : accepted_session_ids Fixture.created 2 = []) by (vm_compute; reflexivity).
  destruct (conflict_check_as_coded Fixture.created 2 Fixture.T) as (_ & Hc & Hr).
  split; [exact (Hc H0)|].
  apply (Hr Fixture.mail_ok 2000%Z Fixture.verify (Some "Bearer tok-b") 7 0
           (mkSession 0 7 1 Fixture.T None (Some "Rocq") None None)); vm_compute; reflexivity.
Defined.

(** every row of session [sid] is a fresh pending invite *)
Definition fresh_rows (d : db) (sid : nat) : Prop :=
  forall r, In r (session_invites d) -> session_id r = sid -> status r = Pending /\ responded_at r = None.

Lemma accepted_ids_pending_app (d d' : db) ni nm nq (u : nat) :
  extends d d' ni nm nq -> (forall i, In i ni -> status i = Pending) ->
  accepted_session_ids d' u = accepted_session_ids d u.
Proof.
  intros (Hi & _) Hp. unfold accepted_session_ids. rewrite Hi, filter_app, map_app.
  rewrite (filter_none _ ni); [apply app_nil_r|].
  intros i Hin. rewrite (Hp i Hin). apply andb_false_r.
Qed.

Lemma create_check_pending_app (d d' : db) ni nm nq (u : nat) (t : Z) :
  extends d d' ni nm nq -> (forall i, In i ni -> status i = Pending) ->
  create_conflict_check d' u t = create_conflict_check d u t.
Proof.
  intros He Hp. pose proof (accepted_ids_pending_app d d' ni nm nq u He Hp) as Ha.
  destruct He as (_ & _ & _ & Hs & _).
  unfold create_conflict_check, sessions_in. rewrite Ha, Hs. reflexivity.
Qed.

Lemma fan_out_member_invites (mail_ok : string -> bool) (c : nat) (s : session) (m : profile)
    (d : db) (e : string) :
  email m = Some e -> truthy (Some e) = true ->
  fst (create_conflict_check d (pid m) (start_at s)) = false -> fresh_rows d (id s) ->
  In (mkInvite (id s) (pid m) Pending None) (session_invites (fan_out_member mail_ok c s m d)) /\
  In (mkMail e (Invitation (id s) (pid m)) (mail_ok e)) (mails (fan_out_member mail_ok c s m d)).
Proof.
  intros He Ht Hc Hf. unfold fan_out_member. rewrite He, Ht. simpl.
  destruct (create_conflict_check d (pid m) (start_at s)) as [hc qs]. simpl in Hc. subst hc.
  unfold insert_invite.
  destruct (existsb (same_key (mkInvite (id s) (pid m) Pending None)) _) eqn:Ex; simpl.
  - split; [|apply in_or_app; right; left; reflexivity].
    apply existsb_exists in Ex as (r & Hr & Hk). apply same_key_true in Hk.
    unfold invite_key in Hk. simpl in Hk. injection Hk as Hs Hu.
    destruct (Hf r Hr Hs) as [Hst Hra].
    destruct r as [rs ru rst rra]; simpl in *. subst. exact Hr.
  - split; apply in_or_app; right; left; reflexivity.
Qed.

Lemma fan_out_invites_all (mail_ok : string -> bool) (c : nat) (s : session) (ms : list profile) :
  forall (d : db), fresh_rows d (id s) ->
  forall m e, In m ms -> email m = Some e -> truthy (Some e) = true ->
  fst (create_conflict_check d (pid m) (start_at s)) = false ->
  In (mkInvite (id s) (pid m) Pending None) (session_invites (fan_out mail_ok c s ms d)) /\
  In (mkMail e (Invitation (id s) (pid m)) (mail_ok e)) (mails (fan_out mail_ok c s ms d)).
Proof.
  induction ms as [|m0 ms IH]; simpl; intros d Hf m e Hin He Ht Hc; [contradiction|].
  destruct (fan_out_member_extends mail_ok c s m0 d) as (ni & nm & nq & Hx & _ & Hni & _).
  assert (Hp : forall i, In i ni -> status i = Pending) by (intros i Hi; rewrite (Hni i Hi); reflexivity).
  assert (Hf' : fresh_rows (fan_out_member mail_ok c s m0 d) (id s)).
  { intros r Hr Hs. destruct Hx as (Hi & _). rewrite Hi in Hr. apply in_app_iff in Hr as [Hr|Hr].
    - apply Hf; assumption.
    - rewrite (Hni r Hr). split; reflexivity. }
  destruct Hin as [<-|Hin].
  - destruct (fan_out_member_invites mail_ok c s m0 d e He Ht Hc Hf) as [H1 H2].
    destruct (fan_out_extends mail_ok c s ms (fan_out_member mail_ok c s m0 d))
      as (ni' & nm' & nq' & (Hi' & Hm' & _) & _).
    rewrite Hi', Hm'. split; apply in_or_app; left; assumption.
  - apply IH; try assumption.
    rewrite (create_check_pending_app d _ ni nm nq (pid m) (start_at s) Hx Hp). exact Hc.
Qed.

Lemma create_check_after_insert (d : db) (s : session) (u : nat) (t : Z) :
  id s = next_id d -> Forall (fun i => session_id i < next_id d) (session_invites d) ->
  fst (create_conflict_check (set_next_id (set_sessions d (sessions d ++ [s])) (S (next_id d))) u t) =
  fst (create_conflict_check d u t).
Proof.
  intros Hid Hf. rewrite !create_check_fst. apply eq_iff_eq_true.
  rewrite !accepted_sessions_at_spec. simpl. split.
  - intros (i & s' & Hi & Hu & Ha & Hs & Hk & Ht). exists i, s'. repeat split; auto.
    apply in_app_iff in Hs as [Hs|[<-|[]]]; [exact Hs|].
    exfalso. rewrite Forall_forall in Hf. specialize (Hf i Hi). lia.
  - intros (i & s' & Hi & Hu & Ha & Hs & Hk & Ht). exists i, s'. repeat split; auto.
    apply in_or_app. left. exact Hs.
Qed.

(** C9 (notification failure isolation).  When three other members, each
    with an e-mail address and no conflicting acceptance, are fanned out,
    creation answers 200 with the session, and every one of them gets a
    pending invite row and an invitation dispatch, whatever the mail API
    answers to each dispatch; in particular when it fails for exactly one. *)
Theorem notification_failure_isolated (Date_parse : string -> option Z) (mail_ok : string -> bool)
    (now : Z) (verify : string -> verify_result) (hdr : option string) (g : nat) (b : create_body)
    (d : db) (u : nat) (raw : string) (t : Z) (p1 p2 p3 : profile) :
  getUser verify hdr = UUser u -> requireGroupMember d g u = true ->
  b_start_at b = Some raw -> truthy (Some raw) = true -> Date_parse raw = Some t -> (now <= t)%Z ->
  Forall (fun i => session_id i < next_id d) (session_invites d) ->
  member_profiles d g u = [Some p1; Some p2; Some p3] ->
  (forall p, In p [p1; p2; p3] ->
     truthy (email p) = true /\ fst (create_conflict_check d (pid p) t) = false) ->
  let s := mkSession (next_id d) g u t (b_venue b) (b_topic b) (b_time_goal_minutes b)
             (b_content_goal b) in
  let r := post_sessions Date_parse mail_ok now verify hdr g b d in
  fst r = Json (BSession s) /\
  forall p e, In p [p1; p2; p3] -> email p = Some e ->
    In (mkInvite (id s) (pid p) Pending None) (session_invites (snd r)) /\
    In (mkMail e (Invitation (id s) (pid p)) (mail_ok e)) (mails (snd r)).
Proof.
  intros Hu Hm Hb Ht Hp Hle Hf Hmp Hinv s r. unfold r, post_sessions.
  rewrite Hu, Hm, Hb, Ht. simpl. rewrite Hp.
  assert (Hge : Z.ltb t now = false) by (apply Z.ltb_ge; exact Hle). rewrite Hge. cbv zeta.
  fold s.
  set (d1 := set_next_id (set_sessions d (sessions d ++ [s])) (S (next_id d))).
  change (member_profiles d1 g u) with (member_profiles d g u). rewrite Hmp. simpl.
  split; [reflexivity|].
  intros p e Hin He.
  destruct (Hinv p Hin) as [Htr Hc].
  apply (fan_out_invites_all mail_ok u s [p1; p2; p3] d1); auto.
  - intros x Hx Hs. exfalso. rewrite Forall_forall in Hf. specialize (Hf x Hx).
    unfold s in Hs. simpl in Hs. lia.
  - rewrite He in Htr. exact Htr.
  - unfold d1. rewrite create_check_after_insert; [exact Hc|reflexivity|exact Hf].
Qed.

Lemma notification_failure_isolated_witness :
  Fixture.mail_ok "c@x.org" = false /\
  fst (post_sessions Fixture.Date_parse Fixture.mail_ok 1000 Fixture.verify (Some "Bearer tok-a") 7
         (Fixture.body_at "2099-12-25T10:00:00Z") Fixture.store3) =
    Json (BSession (mkSession 0 7 1 Fixture.T None (Some "Rocq") None None)) /\
  In (mkInvite 0 5 Pending None)
    (session_invites (snd (post_sessions Fixture.Date_parse Fixture.mail_ok 1000 Fixture.verify
                             (Some "Bearer tok-a") 7 (Fixture.body_at "2099-12-25T10:00:00Z") Fixture.store3))).
Proof.
  destruct (notification_failure_isolated Fixture.Date_parse Fixture.mail_ok 1000 Fixture.verify
              (Some "Bearer tok-a") 7 (Fixture.body_at "2099-12-25T10:00:00Z") Fixture.store3 1
              "2099-12-25T10:00:00Z" Fixture.T
              (mkProfile 2 (Some "b@x.org") "B") (mkProfile 3 (Some "c@x.org") "C")
              (mkProfile 5 (Some "e@x.org") "E"))
    as [H1 H2].
  - vm_compute. reflexivity.
  - vm_compute. reflexivity.
  - reflexivity.
  - vm_compute. reflexivity.
  - vm_compute. reflexivity.
  - unfold Fixture.T. lia.
  - constructor.
  - vm_compute. reflexivity.
  - intros p Hp. simpl in Hp.
    destruct Hp as [<-|[<-|[<-|[]]]]; split; vm_compute; reflexivity.
  - split; [vm_compute; reflexivity|]. split; [exact H1|].
    apply (H2 (mkProfile 5 (Some "e@x.org") "E") "e@x.org"); [simpl; auto|reflexivity].
Defined.

Lemma member_profile_find (d : db) (g u : nat) (p : profile) :
  In (Some p) (member_profiles d g u) -> find_profile d (pid p) = Some p.
Proof.
  unfold member_profiles. intros H. apply in_map_iff in H as (gm & Hf & _).
  pose proof Hf as Hf'. unfold find_profile in Hf'. apply find_some in Hf' as [_ Hid].
  apply Nat.eqb_eq in Hid. rewrite Hid. exact Hf.
Qed.

Lemma all_profiles_in (l : list (option profile)) (ms : list profile) (p : profile) :
  all_profiles l = Some ms -> In p ms -> In (Some p) l.
Proof.
  revert ms. induction l as [|o l IH]; simpl; intros ms H Hin.
  - injection H as <-. contradiction.
  - destruct o as [q|]; [|discriminate H].
    destruct (all_profiles l) as [ps|] eqn:E; [|discriminate H].
    injection H as <-. destruct Hin as [<-|Hin]; [left; reflexivity|].
    right. apply (IH ps); auto.
Qed.

(** C10 (members without e-mail are skipped).  A member whose joined
    profile has no e-mail address gets no invite row for the new session,
    no mail is dispatched about them (neither an invitation nor a conflict
    notice naming them), and no conflict-check read is issued for them. *)
Theorem no_email_member_skipped (Date_parse : string -> option Z) (mail_ok : string -> bool)
    (now : Z) (verify : string -> verify_result) (hdr : option string) (g : nat) (b : create_body)
    (d : db) (u : nat) (m : profile) :
  getUser verify hdr = UUser u -> In (Some m) (member_profiles d g u) -> truthy (email m) = false ->
  Forall (fun i => session_id i < next_id d) (session_invites d) ->
  let d' := snd (post_sessions Date_parse mail_ok now verify hdr g b d) in
  (forall i, In i (session_invites d') -> ~ (session_id i = next_id d /\ user_id i = pid m)) /\
  (exists nm, mails d' = mails d ++ nm /\ forall x, In x nm -> mail_member (mail_about x) <> pid m) /\
  (exists nq, query_log d' = query_log d ++ nq /\ ~ In (QAcceptedInvites (pid m)) nq).
Proof.
  intros Hu Hin Hm Hf d'.
  assert (Hold : forall i, In i (session_invites d) -> ~ (session_id i = next_id d /\ user_id i = pid m)).
  { intros i Hi [Hs _]. rewrite Forall_forall in Hf. specialize (Hf i Hi). lia. }
  assert (Hsame : forall d2, session_invites d2 = session_invites d -> mails d2 = mails d ->
            query_log d2 = query_log d ->
            (forall i, In i (session_invites d2) -> ~ (session_id i = next_id d /\ user_id i = pid m)) /\
            (exists nm, mails d2 = mails d ++ nm /\ forall x, In x nm -> mail_member (mail_about x) <> pid m) /\
            (exists nq, query_log d2 = query_log d ++ nq /\ ~ In (QAcceptedInvites (pid m)) nq)).
  { intros d2 Hi Hma Hq. split; [rewrite Hi; exact Hold|].
    split; [exists []; rewrite app_nil_r; split; [exact Hma|contradiction]|].
    exists []. rewrite app_nil_r. split; [exact Hq|auto]. }
  unfold d', post_sessions. rewrite Hu.
  destruct (negb (requireGroupMember d g u)); [apply Hsame; reflexivity|].
  destruct (negb (truthy (b_start_at b))); [apply Hsame; reflexivity|].
  destruct (b_start_at b) as [raw|]; [|apply Hsame; reflexivity].
  destruct (Date_parse raw) as [t|]; [|apply Hsame; reflexivity].
  destruct (Z.ltb t now); [apply Hsame; reflexivity|].
  cbv zeta.
  set (s := mkSession (next_id d) g u t (b_venue b) (b_topic b) (b_time_goal_minutes b)
              (b_content_goal b)).
  set (d1 := set_next_id (set_sessions d (sessions d ++ [s])) (S (next_id d))).
  change (member_profiles d1 g u) with (member_profiles d g u).
  destruct (member_profiles d g u) as [|o os] eqn:Emp; [apply Hsame; reflexivity|].
  destruct (all_profiles (o :: os)) as [ms|] eqn:Ea; [|apply Hsame; reflexivity].
  cbn [snd].
  assert (Hsk : forall m', In m' ms -> truthy (email m') = true -> pid m' <> pid m).
  { intros m' Hm' Ht' Hp. apply (all_profiles_in _ _ _ Ea) in Hm'. rewrite <- Emp in Hm', Hin.
    apply member_profile_find in Hm', Hin. rewrite Hp in Hm'. rewrite Hin in Hm'.
    injection Hm' as <-. congruence. }
  destruct (fan_out_extends mail_ok u s ms d1) as (ni & nm & nq & (Hi & Hma & Hq & _) & Hni & Hnm & Hnq).
  split; [|split].
  - intros i Hi'. rewrite Hi in Hi'. apply in_app_iff in Hi' as [Hi'|Hi']; [apply Hold; exact Hi'|].
    destruct (Hni i Hi') as (m' & Hm' & Ht' & ->). simpl. intros [_ Hp].
    exact (Hsk m' Hm' Ht' Hp).
  - exists nm. split; [exact Hma|]. intros x Hx Hp.
    destruct (Hnm x Hx) as (m' & Hm' & Ht' & Hx'). apply (Hsk m' Hm' Ht'). congruence.
  - exists nq. split; [exact Hq|]. intros Hx.
    destruct (Hnq _ Hx) as (m' & Hm' & Ht' & [Hq'|(ids & Hq')]); [|discriminate Hq'].
    injection Hq' as Hp. apply (Hsk m' Hm' Ht'). congruence.
Qed.

Lemma no_email_member_skipped_witness :
  In (Some (mkProfile 4 None "D")) (member_profiles Fixture.store 7 1) /\
  ~ In (QAcceptedInvites 4) (query_log Fixture.created) /\
  (forall i, In i (session_invites Fixture.created) -> ~ (session_id i = 0 /\ user_id i = 4)).
Proof.
  assert (Hin : In (Some (mkProfile 4 None "D")) (member_profiles Fixture.store 7 1)).
  { vm_compute. right; right; left. reflexivity. }
  destruct (no_email_member_skipped Fixture.Date_parse Fixture.mail_ok 1000 Fixture.verify
              (Some "Bearer tok-a") 7 (Fixture.body_at "2099-12-25T10:00:00Z") Fixture.store 1
              (mkProfile 4 None "D")) as (H1 & _ & (nq & Hq & Hn)).
  - vm_compute. reflexivity.
  - exact Hin.
  - reflexivity.
  - constructor.
  - split; [exact Hin|]. split; [|exact H1].
    unfold Fixture.created. rewrite Hq. simpl. exact Hn.
Defined.

(** ** Further properties of the routes *)

(** *** Upsert on the invite key *)

Lemma find_map_replace (p : invite -> bool) (x : invite) (l : list invite) :
  p x = true ->
  find p (map (fun r => if p r then x else r) l) = if existsb p l then Some x else None.
Proof.
  intros Hx. induction l as [|r l IH]; simpl; [reflexivity|].
  destruct (p r) eqn:Er; simpl.
  - rewrite Hx. reflexivity.
  - rewrite Er. exact IH.
Qed.

Lemma find_app_none {A} (p : A -> bool) (l : list A) (x : A) :
  existsb p l = false -> p x = true -> find p (l ++ [x]) = Some x.
Proof.
  induction l as [|r l IH]; simpl; intros H Hx.
  - rewrite Hx. reflexivity.
  - destruct (p r); [discriminate H|]. apply IH; assumption.
Qed.

Lemma find_app_skip {A} (p : A -> bool) (l : list A) (x : A) :
  p x = false -> find p (l ++ [x]) = find p l.
Proof.
  intros Hx. induction l as [|r l IH]; simpl; [rewrite Hx; reflexivity|].
  destruct (p r); [reflexivity|exact IH].
Qed.

Lemma same_key_unfold (x r : invite) :
  same_key x r = Nat.eqb (session_id r) (session_id x) && Nat.eqb (user_id r) (user_id x).
Proof. reflexivity. Qed.

Lemma upsert_find_invite_same (d : db) (x : invite) :
  find_invite (upsert_invite d x) (session_id x) (user_id x) = Some x.
Proof.
  unfold find_invite, upsert_invite.
  change (fun i => Nat.eqb (session_id i) (session_id x) && Nat.eqb (user_id i) (user_id x))
    with (same_key x).
  assert (Hx : same_key x x = true) by (rewrite same_key_unfold, !Nat.eqb_refl; reflexivity).
  destruct (existsb (same_key x) (session_invites d)) eqn:E; simpl.
  - rewrite find_map_replace by exact Hx. rewrite E. reflexivity.
  - apply find_app_none; assumption.
Qed.

Lemma upsert_find_invite_other (d : db) (x : invite) (sid uid : nat) :
  (sid, uid) <> (session_id x, user_id x) ->
  find_invite (upsert_invite d x) sid uid = find_invite d sid uid.
Proof.
  intros Hne. unfold find_invite, upsert_invite.
  set (q := fun i : invite => Nat.eqb (session_id i) sid && Nat.eqb (user_id i) uid).
  assert (Hqx : q x = false).
  { unfold q. destruct (Nat.eqb_spec (session_id x) sid), (Nat.eqb_spec (user_id x) uid);
      subst; simpl; auto. exfalso. apply Hne. reflexivity. }
  destruct (existsb (same_key x) (session_invites d)); simpl.
  - induction (session_invites d) as [|r l IH]; simpl; [reflexivity|].
    destruct (same_key x r) eqn:Er.
    + rewrite Hqx. rewrite same_key_unfold in Er. apply andb_true_iff in Er as [E1 E2].
      apply Nat.eqb_eq in E1, E2.
      assert (q r = false) as -> by (unfold q in *; rewrite E1, E2; exact Hqx). exact IH.
    + destruct (q r); [reflexivity|exact IH].
  - apply find_app_skip. exact Hqx.
Qed.

Lemma existsb_ext_eq {A} (f g : A -> bool) (l : list A) :
  (forall a, f a = g a) -> existsb f l = existsb g l.
Proof. intros H. induction l as [|a l IH]; simpl; [reflexivity|]. rewrite H, IH. reflexivity. Qed.

Lemma same_key_ext (x y r : invite) :
  invite_key x = invite_key y -> same_key y r = same_key x r.
Proof. unfold invite_key. intros H. inversion H as [[E1 E2]]. rewrite !same_key_unfold, E1, E2. reflexivity. Qed.

(** a later upsert on the same key supersedes an earlier one entirely *)
Lemma upsert_twice (d : db) (x y : invite) :
  invite_key x = invite_key y -> upsert_invite (upsert_invite d x) y = upsert_invite d y.
Proof.
  intros Hk. assert (Hs : forall r, same_key y r = same_key x r) by (intros; apply same_key_ext; exact Hk).
  assert (Hyx : same_key y x = true) by (rewrite Hs; apply same_key_true; reflexivity).
  unfold upsert_invite at 2 3.
  destruct (existsb (same_key x) (session_invites d)) eqn:E.
  - assert (Ey : existsb (same_key y) (session_invites d) = true)
      by (rewrite (existsb_ext_eq _ _ _ Hs); exact E).
    rewrite Ey. unfold upsert_invite, set_invites; simpl.
    assert (existsb (same_key y) (map (fun r => if same_key x r then x else r) (session_invites d)) = true)
      as ->.
    { apply existsb_exists in E as [r [Hr Er]]. apply existsb_exists.
      exists x. split; [apply in_map_iff; exists r; rewrite Er; auto|exact Hyx]. }
    f_equal. rewrite map_map. apply map_ext. intros r.
    destruct (same_key x r) eqn:Er; [rewrite Hyx, (Hs r), Er|rewrite (Hs r), Er]; reflexivity.
  - assert (Ey : existsb (same_key y) (session_invites d) = false)
      by (rewrite (existsb_ext_eq _ _ _ Hs); exact E).
    rewrite Ey. unfold upsert_invite, set_invites; simpl.
    rewrite existsb_app. simpl. rewrite Hyx, orb_true_r.
    f_equal. rewrite map_app. simpl. rewrite Hyx. f_equal.
    rewrite <- (map_id (session_invites d)) at 2. apply map_ext_in. intros r Hr.
    rewrite Hs. destruct (same_key x r) eqn:Er; [|reflexivity].
    assert (existsb (same_key x) (session_invites d) = true) by (apply existsb_exists; eauto).
    congruence.
Qed.

Lemma upsert_keeps_other (d : db) (x r : invite) :
  In r (session_invites d) -> same_key x r = false -> In r (session_invites (upsert_invite d x)).
Proof.
  intros Hr Hk. unfold upsert_invite.
  destruct (existsb (same_key x) (session_invites d)); simpl.
  - apply in_map_iff. exists r. rewrite Hk. auto.
  - apply in_or_app. left. exact Hr.
Qed.

Lemma two_in_length {A} (a b : A) (l : list A) :
  In a l -> In b l -> a <> b -> 2 <= length l.
Proof.
  destruct l as [|c [|e l]]; simpl; intros Ha Hb Hne; try lia; try contradiction.
  destruct Ha as [Ha|[]]; destruct Hb as [Hb|[]]; subst. contradiction.
Qed.

(** *** Insertion sort by [start_at] *)

Lemma insert_by_start_perm (s : session) (l : list session) :
  Permutation (insert_by_start s l) (s :: l).
Proof.
  induction l as [|x r IH]; simpl; [auto|].
  destruct (Z.leb (start_at s) (start_at x)); [auto|].
  eapply perm_trans; [apply perm_skip; exact IH|]. apply perm_swap.
Qed.

Lemma sort_by_start_perm (l : list session) : Permutation (sort_by_start l) l.
Proof.
  induction l as [|x r IH]; simpl; [auto|].
  eapply perm_trans; [apply insert_by_start_perm|]. apply perm_skip. exact IH.
Qed.

Lemma insert_by_start_sorted (s : session) (l : list session) :
  Sorted (fun a b => (start_at a <= start_at b)%Z) l ->
  Sorted (fun a b => (start_at a <= start_at b)%Z) (insert_by_start s l).
Proof.
  induction 1 as [|x r Hs IH Hhd]; simpl.
  - constructor; constructor.
  - destruct (Z.leb_spec (start_at s) (start_at x)).
    + constructor; [constructor; assumption|constructor; assumption].
    + constructor; [exact IH|].
      destruct r as [|y r']; simpl; [constructor; lia|].
      destruct (Z.leb (start_at s) (start_at y)); constructor; [lia|].
      inversion Hhd; assumption.
Qed.

Lemma sort_by_start_sorted (l : list session) :
  Sorted (fun a b => (start_at a <= start_at b)%Z) (sort_by_start l).
Proof. induction l as [|x r IH]; simpl; [constructor|]. apply insert_by_start_sorted. exact IH. Qed.

(** *** Tag stripping *)

Lemma after_gt_none (r : string) : after_gt r = None <-> has_gt r = false.
Proof.
  induction r as [|c r IH]; simpl; [split; reflexivity|].
  destruct (Ascii.eqb c ">"%char); simpl; [split; discriminate|exact IH].
Qed.

Lemma after_gt_length (r rest : string) : after_gt r = Some rest -> String.length rest < String.length r.
Proof.
  induction r as [|c r IH]; simpl; [discriminate|].
  destruct (Ascii.eqb c ">"%char); [intros H; injection H as <-; lia|].
  intros H. specialize (IH H). lia.
Qed.

Lemma strip_fuel_no_tag (n : nat) (s : string) : has_tag s = false -> strip_fuel n s = s.
Proof.
  revert s. induction n as [|n IH]; intros s Hs; [reflexivity|].
  destruct s as [|c r]; simpl; [reflexivity|].
  simpl in Hs. apply orb_false_iff in Hs as [H1 H2].
  destruct (Ascii.eqb c "<"%char) eqn:Ec; simpl in H1.
  - apply after_gt_none in H1. rewrite H1. f_equal. apply IH. exact H2.
  - f_equal. apply IH. exact H2.
Qed.

Lemma has_gt_has_tag (s : string) : has_gt s = false -> has_tag s = false.
Proof.
  induction s as [|c r IH]; simpl; [reflexivity|].
  intros H. apply orb_false_iff in H as [_ H]. rewrite H, andb_false_r. apply IH. exact H.
Qed.

Lemma strip_fuel_tag_free (n : nat) (s : string) :
  String.length s <= n -> has_tag (strip_fuel n s) = false.
Proof.
  revert s. induction n as [|n IH]; intros s Hl.
  - destruct s; simpl in *; [reflexivity|lia].
  - destruct s as [|c r]; simpl; [reflexivity|]. simpl in Hl.
    destruct (Ascii.eqb c "<"%char) eqn:Ec.
    + destruct (after_gt r) as [rest|] eqn:Ea.
      * apply IH. apply after_gt_length in Ea. lia.
      * simpl. rewrite Ec. apply after_gt_none in Ea.
        rewrite (strip_fuel_no_tag n r (has_gt_has_tag r Ea)). rewrite Ea. simpl.
        apply has_gt_has_tag. exact Ea.
    + simpl. rewrite Ec. simpl. apply IH. lia.
Qed.

(** *** [to.split('@')[0]] *)

Lemma before_at_spec (s : string) :
  has_at (before_at s) = false /\
  exists rest, s = (before_at s ++ rest)%string /\ (rest = "" \/ exists r, rest = String "@"%char r).
Proof.
  induction s as [|c r (IH1 & rest & IH2 & IH3)]; simpl.
  - split; [reflexivity|]. exists "". auto.
  - destruct (Ascii.eqb_spec c "@"%char) as [->|Hc]; simpl.
    + split; [reflexivity|]. exists (String "@"%char r). split; [reflexivity|]. right. eauto.
    + split.
      * apply Ascii.eqb_neq in Hc. rewrite Hc. exact IH1.
      * exists rest. split; [rewrite IH2 at 1; reflexivity|exact IH3].
Qed.

(** *** Message listing *)

Lemma insert_by_created_perm (x : message) (l : list message) :
  Permutation (insert_by_created x l) (x :: l).
Proof.
  induction l as [|y r IH]; simpl; [auto|].
  destruct (Z.leb (created_at y) (created_at x)); [auto|].
  eapply perm_trans; [apply perm_skip; exact IH|]. apply perm_swap.
Qed.

Lemma sort_by_created_desc_perm (l : list message) : Permutation (sort_by_created_desc l) l.
Proof.
  induction l as [|x r IH]; simpl; [auto|].
  eapply perm_trans; [apply insert_by_created_perm|]. apply perm_skip. exact IH.
Qed.

Lemma insert_by_created_sorted (x : message) (l : list message) :
  Sorted (fun a b => (created_at b <= created_at a)%Z) l ->
  Sorted (fun a b => (created_at b <= created_at a)%Z) (insert_by_created x l).
Proof.
  induction 1 as [|y r Hs IH Hhd]; simpl.
  - constructor; constructor.
  - destruct (Z.leb_spec (created_at y) (created_at x)).
    + constructor; [constructor; assumption|constructor; assumption].
    + constructor; [exact IH|].
      destruct r as [|z r']; simpl; [constructor; lia|].
      destruct (Z.leb (created_at z) (created_at x)); constructor; [lia|].
      inversion Hhd; assumption.
Qed.

Lemma sort_by_created_desc_strongly (l : list message) :
  StronglySorted (fun a b => (created_at b <= created_at a)%Z) (sort_by_created_desc l).
Proof.
  apply Sorted_StronglySorted.
  - intros a b c H1 H2. lia.
  - induction l as [|x r IH]; simpl; [constructor|]. apply insert_by_created_sorted. exact IH.
Qed.

Lemma StronglySorted_app_inv {A} (R : A -> A -> Prop) (l1 l2 : list A) (a b : A) :
  StronglySorted R (l1 ++ l2) -> In a l1 -> In b l2 -> R a b.
Proof.
  induction l1 as [|c l1 IH]; simpl; intros H Ha Hb; [contradiction|].
  apply StronglySorted_inv in H as [H Hf]. destruct Ha as [<-|Ha].
  - rewrite Forall_forall in Hf. apply Hf. apply in_or_app. right. exact Hb.
  - apply IH; assumption.
Qed.

Lemma StronglySorted_firstn {A} (R : A -> A -> Prop) (n : nat) (l : list A) :
  StronglySorted R l -> StronglySorted R (firstn n l).
Proof.
  intros H. rewrite <- (firstn_skipn n l) in H.
  induction (firstn n l) as [|a r IH]; simpl in *; [constructor|].
  apply StronglySorted_inv in H as [H Hf]. constructor; [apply IH; exact H|].
  rewrite Forall_forall in *. intros y Hy. apply Hf. apply in_or_app. left. exact Hy.
Qed.

Lemma StronglySorted_snoc {A} (R : A -> A -> Prop) (l : list A) (a : A) :
  StronglySorted R l -> (forall y, In y l -> R y a) -> StronglySorted R (l ++ [a]).
Proof.
  induction l as [|b l IH]; simpl; intros H Hy.
  - constructor; constructor.
  - apply StronglySorted_inv in H as [H Hf]. constructor.
    + apply IH; auto.
    + apply Forall_app. split; [exact Hf|]. constructor; [apply Hy; auto|constructor].
Qed.

Lemma rev_map_sorted (f : message -> message * option string) (msgs : list message) :
  (forall x, fst (f x) = x) ->
  StronglySorted (fun a b => (created_at b <= created_at a)%Z) msgs ->
  Sorted (fun a b => (created_at (fst a) <= created_at (fst b))%Z) (rev (map f msgs)).
Proof.
  intros Hf H. apply StronglySorted_Sorted.
  induction H as [|a l Hs IH Hall]; simpl; [constructor|].
  apply StronglySorted_snoc; [exact IH|].
  intros y Hy. apply in_rev, in_map_iff in Hy as [z [<- Hz]].
  rewrite !Hf. rewrite Forall_forall in Hall. apply Hall. exact Hz.
Qed.

Lemma nat_set_in_acc (l acc : list nat) (k : nat) :
  In k acc \/ In k l ->
  In k (fold_left (fun acc x => if existsb (Nat.eqb x) acc then acc else acc ++ [x]) l acc).
Proof.
  revert acc. induction l as [|a l IH]; simpl; intros acc H.
  - destruct H as [H|[]]; exact H.
  - apply IH. destruct H as [H|[H|H]].
    + left. destruct (existsb _ acc); [exact H|apply in_or_app; left; exact H].
    + subst. left. destruct (existsb (Nat.eqb k) acc) eqn:E.
      * apply existsb_exists in E as [y [Hy E]]. apply Nat.eqb_eq in E. subst. exact Hy.
      * apply in_or_app. right. left. reflexivity.
    + right. exact H.
Qed.

Lemma nat_set_in (l : list nat) (k : nat) : In k l -> In k (nat_set l).
Proof. intros H. apply nat_set_in_acc. right. exact H. Qed.

Lemma find_none_intro {A} (p : A -> bool) (l : list A) :
  (forall y, In y l -> p y = false) -> find p l = None.
Proof.
  induction l as [|a l IH]; simpl; intros H; [reflexivity|].
  rewrite (H a (or_introl eq_refl)). apply IH. auto.
Qed.

Lemma from_entries_get_acc (es : list (nat * string)) (k : nat) (acc : option string) :
  NoDup (map fst es) ->
  fold_left (fun acc e => if Nat.eqb (fst e) k then Some (snd e) else acc) es acc =
  match find (fun e => Nat.eqb (fst e) k) es with Some e => Some (snd e) | None => acc end.
Proof.
  revert acc. induction es as [|e es IH]; simpl; intros acc Hnd; [reflexivity|].
  inversion Hnd as [|? ? Hn Hnd']; subst.
  destruct (Nat.eqb (fst e) k) eqn:Ek.
  - rewrite IH by exact Hnd'.
    rewrite find_none_intro; [reflexivity|].
    intros y Hy. apply Nat.eqb_eq in Ek. destruct (Nat.eqb_spec (fst y) k); [|reflexivity].
    exfalso. apply Hn. rewrite Ek, <- e0. apply in_map. exact Hy.
  - apply IH. exact Hnd'.
Qed.

Lemma find_filter_sub {A} (q P : A -> bool) (l : list A) :
  (forall y, q y = true -> P y = true) -> find q (filter P l) = find q l.
Proof.
  induction l as [|a l IH]; simpl; intros H; [reflexivity|].
  destruct (P a) eqn:Ep; simpl.
  - destruct (q a); [reflexivity|apply IH; exact H].
  - destruct (q a) eqn:Eq; [rewrite (H a Eq) in Ep; discriminate|apply IH; exact H].
Qed.

Lemma find_map_fun {A B} (f : A -> B) (q : B -> bool) (l : list A) :
  find q (map f l) = option_map f (find (fun a => q (f a)) l).
Proof. induction l as [|a l IH]; simpl; [reflexivity|]. destruct (q (f a)); [reflexivity|exact IH]. Qed.

Lemma NoDup_map_filter {A B} (f : A -> B) (P : A -> bool) (l : list A) :
  NoDup (map f l) -> NoDup (map f (filter P l)).
Proof.
  induction l as [|a l IH]; simpl; intros H; [constructor|].
  inversion H as [|? ? Hn Hnd]; subst. destruct (P a); simpl; [|auto].
  constructor; [|auto]. intros Hin. apply Hn. apply in_map_iff in Hin as [y [Hy Hy']].
  apply filter_In in Hy' as [Hy' _]. rewrite <- Hy. apply in_map. exact Hy'.
Qed.

(** the shape of a successful listing *)
Lemma get_messages_inv (pg_int : string -> option Z) (limit_of : string -> option nat)
    (verify : string -> verify_result) (hdr : option string) (g : nat) (sessionId limit : option string)
    (m : mdb) (l : list (message * option string)) :
  get_messages pg_int limit_of verify hdr g sessionId limit m = MMessages l ->
  exists n keep, message_limit limit_of limit = Some n /\ message_filter pg_int g sessionId = Some keep /\
    let msgs := firstn n (sort_by_created_desc (filter keep (group_messages m))) in
    let senderIds := nat_set (map sender_id msgs) in
    l = rev (map (fun x => (x, or_null (from_entries_get
          match senderIds with
          | [] => []
          | _ => map (fun p => (pid p, full_name p))
                   (filter (fun p => existsb (Nat.eqb (pid p)) senderIds) (profiles (base m)))
          end (sender_id x)))) msgs).
Proof.
  unfold get_messages. destruct (getUser verify hdr); try discriminate.
  destruct (negb _); [discriminate|].
  destruct (message_limit limit_of limit) as [n|]; [|discriminate].
  destruct (message_filter pg_int g sessionId) as [keep|]; [|discriminate].
  intros H. injection H as <-. exists n, keep. repeat split.
Qed.

Lemma message_filter_spec (pg_int : string -> option Z) (g : nat) (sessionId : option string)
    (keep : message -> bool) (x : message) :
  message_filter pg_int g sessionId = Some keep -> keep x = true ->
  m_group_id x = g /\
  (forall s, sessionId = Some s -> s <> "" -> exists k, pg_int s = Some k /\ m_session_id x = Some k).
Proof.
  unfold message_filter. destruct sessionId as [s|].
  - simpl. destruct (String.eqb_spec s "") as [->|Hs]; simpl.
    + intros H. injection H as <-. intros Hk. apply Nat.eqb_eq in Hk.
      split; [exact Hk|]. intros s' Hs' Hne. injection Hs' as <-. contradiction.
    + destruct (pg_int s) as [k|] eqn:Ep; [|discriminate].
      intros H. injection H as <-. intros Hk. apply andb_true_iff in Hk as [Hg Hsid].
      apply Nat.eqb_eq in Hg. split; [exact Hg|].
      intros s' Hs' _. injection Hs' as <-. exists k. split; [exact Ep|].
      destruct (m_session_id x) as [j|]; [|discriminate]. apply Z.eqb_eq in Hsid. subst. reflexivity.
  - intros H. injection H as <-. intros Hk. apply Nat.eqb_eq in Hk.
    split; [exact Hk|]. intros s Hs. discriminate Hs.
Qed.

Lemma sort_newest_head (L : list message) (r : message) :
  (forall x, In x L -> (created_at x < created_at r)%Z) ->
  exists t, sort_by_created_desc (L ++ [r]) = r :: t.
Proof.
  induction L as [|a L IH]; simpl; intros H.
  - exists []. reflexivity.
  - destruct IH as [t Ht]; [intros; apply H; auto|]. rewrite Ht. simpl.
    destruct (Z.leb_spec (created_at r) (created_at a)) as [Hle|Hlt].
    + specialize (H a (or_introl eq_refl)). lia.
    + eexists. reflexivity.
Qed.

Lemma get_messages_default (pg_int : string -> option Z) (limit_of : string -> option nat)
    (verify : string -> verify_result) (hdr : option string) (g u : nat) (m : mdb) :
  getUser verify hdr = UUser u -> requireGroupMember (base m) g u = true ->
  exists names : message -> option string,
    get_messages pg_int limit_of verify hdr g None None m =
    MMessages (rev (map (fun x => (x, names x))
      (firstn 100 (sort_by_created_desc
         (filter (fun x => Nat.eqb (m_group_id x) g) (group_messages m)))))).
Proof.
  intros Hu Hm. unfold get_messages. rewrite Hu, Hm. simpl. eexists. reflexivity.
Qed.

Lemma parse_status_not_pending (st : option string) : parse_status st <> Some Pending.
Proof.
  unfold parse_status. destruct st as [s|]; [|discriminate].
  repeat match goal with
         | |- context [match ?x with _ => _ end] => destruct x
         end; discriminate.
Qed.

(** C2 (idempotent RSVP).  If an authenticated [respond] call succeeded,
    the same call again, at any time [now2], succeeds with the same
    confirmation and leaves the store as a single call at [now2] on the
    original store would: the caller's row for the session holds the same
    status stamped [now2], and the invite rows keep unique keys.  Only a
    [declined] call can succeed: an [accepted] call by a member on an
    existing session fails with a TypeError (see C8), so for [accepted] the
    premise never holds. *)
Theorem respond_idempotent (mail_ok : string -> bool) (now1 now2 : Z)
    (verify : string -> verify_result) (hdr : option string) (g sid u : nat) (st : option string)
    (d d1 : db) (r1 : body) :
  getUser verify hdr = UUser u ->
  post_respond mail_ok now1 verify hdr g sid st d = (Json r1, d1) ->
  parse_status st = Some Declined /\
  post_respond mail_ok now2 verify hdr g sid st d1 =
    (Json r1, snd (post_respond mail_ok now2 verify hdr g sid st d)) /\
  find_invite (snd (post_respond mail_ok now2 verify hdr g sid st d1)) sid u =
    Some (mkInvite sid u Declined (Some now2)) /\
  (NoDup (map invite_key (session_invites d)) ->
     NoDup (map invite_key (session_invites (snd (post_respond mail_ok now2 verify hdr g sid st d1))))).
Proof.
  intros Hu H. unfold post_respond in H |- *. rewrite Hu in H |- *. cbv zeta in H |- *.
  destruct (parse_status st) as [v|] eqn:Ep; [|discriminate H].
  destruct (requireGroupMember d g u) eqn:Em; simpl in H; [|discriminate H].
  destruct (find_session d sid) as [s|] eqn:Ef; [|discriminate H].
  destruct v; [exfalso; exact (parse_status_not_pending st Ep)|simpl in H; discriminate H|].
  simpl in H. injection H as <- <-.
  rewrite upsert_member, Em, upsert_find_session, Ef. simpl.
  rewrite (upsert_twice d (mkInvite sid u Declined (Some now1)) (mkInvite sid u Declined (Some now2)))
    by reflexivity.
  split; [reflexivity|]. split; [reflexivity|]. split.
  - apply (upsert_find_invite_same d (mkInvite sid u Declined (Some now2))).
  - apply upsert_keys.
Qed.

Lemma respond_idempotent_witness :
  post_respond Fixture.mail_ok 2000 Fixture.verify (Some "Bearer tok-b") 7 0 (Some "declined")
    Fixture.created = (Json (BMessage "Invite declined"), Fixture.declined_once) /\
  post_respond Fixture.mail_ok 3000 Fixture.verify (Some "Bearer tok-b") 7 0 (Some "declined")
    Fixture.declined_once =
    (Json (BMessage "Invite declined"),
     snd (post_respond Fixture.mail_ok 3000 Fixture.verify (Some "Bearer tok-b") 7 0 (Some "declined")
            Fixture.created)).
Proof.
  assert (H1 : post_respond Fixture.mail_ok 2000 Fixture.verify (Some "Bearer tok-b") 7 0 (Some "declined")
                 Fixture.created = (Json (BMessage "Invite declined"), Fixture.declined_once))
    by (vm_compute; reflexivity).
  split; [exact H1|].
  destruct (respond_idempotent Fixture.mail_ok 2000 3000 Fixture.verify (Some "Bearer tok-b") 7 0 2
              (Some "declined") Fixture.created Fixture.declined_once (BMessage "Invite declined"))
    as (_ & H2 & _); [vm_compute; reflexivity|exact H1|exact H2].
Defined.

(** ** Further properties: e-mail links, listings, mail payloads, messages *)

(** X1 (e-mail link RSVP, insert then lookup).  When the store refuses
    the row for [(sessionId, userId)], both link routes answer 500 "Error
    updating RSVP" and change nothing.  Otherwise both answer 200 and
    afterwards the key holds exactly the row with the route's status and
    the click time, and every other key keeps its row.  Either way the
    sessions, memberships and profiles are unchanged.  No caller identity,
    membership or session existence is checked by the route itself. *)
Theorem link_rsvp_lookup (rej : list session -> list profile -> nat -> nat -> bool)
    (now : Z) (sid uid : nat) (d : db) :
  (rej (sessions d) (profiles d) sid uid = true ->
     get_accept rej now sid uid d = ((500, "Error updating RSVP"), d) /\
     get_decline rej now sid uid d = ((500, "Error updating RSVP"), d)) /\
  (rej (sessions d) (profiles d) sid uid = false ->
     fst (fst (get_accept rej now sid uid d)) = 200 /\ fst (fst (get_decline rej now sid uid d)) = 200 /\
     find_invite (snd (get_accept rej now sid uid d)) sid uid = Some (mkInvite sid uid Accepted (Some now)) /\
     find_invite (snd (get_decline rej now sid uid d)) sid uid = Some (mkInvite sid uid Declined (Some now)) /\
     (forall sid' uid', (sid', uid') <> (sid, uid) ->
        find_invite (snd (get_accept rej now sid uid d)) sid' uid' = find_invite d sid' uid' /\
        find_invite (snd (get_decline rej now sid uid d)) sid' uid' = find_invite d sid' uid')) /\
  (forall r : rsvp, forall msg,
     let d' := snd (rsvp_link rej r msg now sid uid d) in
     sessions d' = sessions d /\ group_members d' = group_members d /\ profiles d' = profiles d).
Proof.
  unfold get_accept, get_decline, rsvp_link. split; [|split].
  - intros E. rewrite E. split; reflexivity.
  - intros E. rewrite E. simpl. split; [reflexivity|]. split; [reflexivity|].
    split; [apply (upsert_find_invite_same d (mkInvite sid uid Accepted (Some now)))|].
    split; [apply (upsert_find_invite_same d (mkInvite sid uid Declined (Some now)))|].
    intros sid' uid' Hne. split; apply upsert_find_invite_other; exact Hne.
  - intros r msg. cbv zeta. destruct (rej (sessions d) (profiles d) sid uid); simpl; [auto|].
    destruct (upsert_invite_other_fields d (mkInvite sid uid r (Some now))) as (H1 & _ & H3 & H4). auto.
Qed.

Lemma link_rsvp_lookup_witness :
  get_accept LinkFixture.fk_rejected 9 0 6 Fixture.store = ((500, "Error updating RSVP"), Fixture.store) /\
  find_invite (snd (get_accept LinkFixture.fk_rejected 9 0 6 Fixture.created)) 0 6 =
    Some (mkInvite 0 6 Accepted (Some 9%Z)) /\
  find_invite (snd (get_accept LinkFixture.fk_rejected 9 0 6 Fixture.created)) 0 2 =
    find_invite Fixture.created 0 2.
Proof.
  destruct (link_rsvp_lookup LinkFixture.fk_rejected 9 0 6 Fixture.store) as (Hr & _ & _).
  destruct (link_rsvp_lookup LinkFixture.fk_rejected 9 0 6 Fixture.created) as (_ & Ha & _).
  split; [apply Hr; vm_compute; reflexivity|].
  destruct Ha as (_ & _ & H1 & _ & H3); [vm_compute; reflexivity|].
  split; [exact H1|]. apply (H3 0 2). intros H. inversion H.
Defined.

(** X2 (e-mail link RSVP, last click wins).  A link click on the same
    [(sessionId, userId)] as an earlier one leaves the store exactly as if
    the earlier click had not happened; in particular a repeated accept
    link is idempotent up to [responded_at], and a decline after an accept
    replaces it.  This holds whether or not the store refuses the row, as
    its refusal depends on the key and the sessions and profiles only. *)
Theorem link_rsvp_last_wins (rej : list session -> list profile -> nat -> nat -> bool)
    (t1 t2 : Z) (sid uid : nat) (d : db) :
  snd (get_accept rej t2 sid uid (snd (get_accept rej t1 sid uid d))) = snd (get_accept rej t2 sid uid d) /\
  snd (get_decline rej t2 sid uid (snd (get_accept rej t1 sid uid d))) = snd (get_decline rej t2 sid uid d) /\
  snd (get_accept rej t2 sid uid (snd (get_decline rej t1 sid uid d))) = snd (get_accept rej t2 sid uid d) /\
  snd (get_decline rej t2 sid uid (snd (get_decline rej t1 sid uid d))) = snd (get_decline rej t2 sid uid d).
Proof.
  unfold get_accept, get_decline, rsvp_link.
  destruct (rej (sessions d) (profiles d) sid uid) eqn:E; simpl; rewrite ?E; [repeat split|].
  destruct (upsert_invite_other_fields d (mkInvite sid uid Accepted (Some t1))) as (Sa & _ & _ & Pa).
  destruct (upsert_invite_other_fields d (mkInvite sid uid Declined (Some t1))) as (Sd & _ & _ & Pd).
  rewrite Sa, Pa, Sd, Pd, E. simpl.
  repeat split; apply upsert_twice; reflexivity.
Qed.

(** X3 (e-mail link accept skips the conflict check).  If [u] already holds
    an accepted invite to a session starting at [t], the accept link of
    another stored session starting at [t] still succeeds whenever the
    store takes the row, and [u] then holds two accepted invites at [t]:
    the link route does not keep the no-double-booking property of the
    authenticated routes. *)
Theorem link_accept_double_books (rej : list session -> list profile -> nat -> nat -> bool)
    (now : Z) (sid u : nat) (t : Z) (d : db) (i : invite) (s : session) :
  In i (session_invites d) -> user_id i = u -> status i = Accepted ->
  session_starts_at d (session_id i) t = true ->
  find_session d sid = Some s -> start_at s = t -> sid <> session_id i ->
  rej (sessions d) (profiles d) sid u = false ->
  fst (fst (get_accept rej now sid u d)) = 200 /\
  2 <= accepted_at (snd (get_accept rej now sid u d)) u t.
Proof.
  intros Hi Hu Ha Hst Hf Hs Hne Hr.
  unfold get_accept, rsvp_link. rewrite Hr. simpl. split; [reflexivity|].
  set (x := mkInvite sid u Accepted (Some now)).
  unfold accepted_at.
  rewrite (booked_sessions d (upsert_invite d x)) by apply upsert_invite_other_fields.
  apply (two_in_length i x).
  - apply filter_In. split.
    + apply upsert_keeps_other; [exact Hi|]. rewrite same_key_unfold. simpl.
      destruct (Nat.eqb_spec (session_id i) sid); [congruence|reflexivity].
    + unfold booked. rewrite Hu, Ha, Hst, Nat.eqb_refl. reflexivity.
  - apply filter_In. split; [apply upsert_in|].
    unfold booked, session_starts_at. simpl. rewrite Hf, Hs, Nat.eqb_refl, Z.eqb_refl. reflexivity.
  - intros E. apply Hne. rewrite E. reflexivity.
Qed.

Lemma link_accept_double_books_witness :
  accepted_at LinkFixture.created_again 2 Fixture.T = 1 /\
  fst (fst (get_accept LinkFixture.fk_rejected 5000 1 2 LinkFixture.created_again)) = 200 /\
  2 <= accepted_at (snd (get_accept LinkFixture.fk_rejected 5000 1 2 LinkFixture.created_again)) 2 Fixture.T.
Proof.
  split; [vm_compute; reflexivity|].
  apply (link_accept_double_books LinkFixture.fk_rejected 5000 1 2 Fixture.T LinkFixture.created_again
           (mkInvite 0 2 Accepted (Some 2000%Z))
           (mkSession 1 7 1 Fixture.T None (Some "Rocq") None None)).
  - vm_compute. left. reflexivity.
  - reflexivity.
  - reflexivity.
  - vm_compute. reflexivity.
  - vm_compute. reflexivity.
  - reflexivity.
  - discriminate.
  - vm_compute. reflexivity.
Defined.

(** X4 (session listing).  For an authenticated group member the listing
    holds exactly the group's stored sessions (as a multiset), ordered by
    ascending [start_at]. *)
Theorem get_sessions_sorted (verify : string -> verify_result) (hdr : option string) (g u : nat) (d : db) :
  getUser verify hdr = UUser u -> requireGroupMember d g u = true ->
  exists l, get_sessions verify hdr g d = Json (BSessions l) /\
    Permutation l (filter (fun s => Nat.eqb (group_id s) g) (sessions d)) /\
    Sorted (fun a b => (start_at a <= start_at b)%Z) l.
Proof.
  intros Hu Hm. unfold get_sessions. rewrite Hu, Hm. simpl.
  eexists. split; [reflexivity|]. split; [apply sort_by_start_perm|apply sort_by_start_sorted].
Qed.

Lemma get_sessions_sorted_witness :
  exists l, get_sessions Fixture.verify (Some "Bearer tok-b") 7 LinkFixture.created_again = Json (BSessions l) /\
    Permutation l (filter (fun s => Nat.eqb (group_id s) 7) (sessions LinkFixture.created_again)) /\
    Sorted (fun a b => (start_at a <= start_at b)%Z) l.
Proof. apply (get_sessions_sorted Fixture.verify (Some "Bearer tok-b") 7 2); vm_compute; reflexivity. Defined.

(** X5 (tag stripping).  [html.replace(/<[^>]*>/g, '')] leaves no [<]
    followed later by a [>]; it returns its input unchanged exactly when the
    input has no such pair; hence applying it twice is applying it once. *)
Theorem strip_tags_spec (s : string) :
  has_tag (strip_tags s) = false /\ (strip_tags s = s <-> has_tag s = false) /\
  strip_tags (strip_tags s) = strip_tags s.
Proof.
  assert (H1 : has_tag (strip_tags s) = false) by (apply strip_fuel_tag_free; lia).
  split; [exact H1|]. split.
  - split; [intros E; rewrite <- E; exact H1|]. intros H. apply strip_fuel_no_tag. exact H.
  - apply strip_fuel_no_tag. exact H1.
Qed.

(** X6 (Mailjet payload of the routes' mails).  Every mail the routes send
    (none passes a [text]) goes to [to] with the given subject and HTML, its
    text part is the HTML with its tags stripped and so holds no tag, and
    the recipient name is the part of [to] before its first [@] (the whole
    address when it has none).  A non-empty explicit [text] would be used
    as the text part instead. *)
Theorem route_mail_payload_spec (to subject html : string) :
  let p := route_mail_payload to subject html in
  mj_to_email p = to /\ mj_subject p = subject /\ mj_html p = html /\
  mj_text p = strip_tags html /\ has_tag (mj_text p) = false /\
  has_at (mj_to_name p) = false /\
  (exists rest, to = (mj_to_name p ++ rest)%string /\ (rest = "" \/ exists r, rest = String "@"%char r)) /\
  (forall t, t <> "" -> mj_text (mailjet_payload to subject html (Some t)) = t).
Proof.
  cbv zeta. unfold route_mail_payload, mailjet_payload.
  destruct (before_at_spec to) as [Ha Hr].
  split; [reflexivity|]. split; [reflexivity|]. split; [reflexivity|]. split; [reflexivity|].
  split; [exact (proj1 (strip_tags_spec html))|]. split; [exact Ha|]. split; [exact Hr|].
  intros t Ht. cbn [mj_text truthy]. destruct (String.eqb_spec t ""); [contradiction|reflexivity].
Qed.

Lemma route_mail_payload_spec_witness :
  mj_to_name (route_mail_payload "b@x.org" "Hi" "<p>New <b>session</b></p>") = "b" /\
  mj_text (route_mail_payload "b@x.org" "Hi" "<p>New <b>session</b></p>") = "New session" /\
  mj_text (mailjet_payload "b@x.org" "Hi" "<p>x</p>" (Some "plain")) = "plain".
Proof.
  destruct (route_mail_payload_spec "b@x.org" "Hi" "<p>x</p>") as (_ & _ & _ & _ & _ & _ & _ & H).
  split; [vm_compute; reflexivity|]. split; [vm_compute; reflexivity|].
  apply H. discriminate.
Defined.

(** X7 (posting a message).  For an authenticated caller: a non-member gets
    403; a member whose body has neither a truthy [content] nor a truthy
    [attachment_url] gets 400; neither writes anything.  Otherwise exactly
    one row is appended and returned: the next id, the path's group, the
    caller as sender (never taken from the body), the insertion time, the
    body's content and attachment, and the body's [session_id] except that
    an absent or zero one is stored as null. *)
Theorem post_messages_outcomes (now : Z) (verify : string -> verify_result) (hdr : option string)
    (g u : nat) (b : message_body) (m : mdb) :
  getUser verify hdr = UUser u ->
  (requireGroupMember (base m) g u = false ->
     post_messages now verify hdr g b m = (MStatus 403 "Not a group member", m)) /\
  (requireGroupMember (base m) g u = true -> truthy (b_content b) = false ->
     truthy (b_attachment_url b) = false ->
     post_messages now verify hdr g b m = (MStatus 400 "content or attachment_url required", m)) /\
  (requireGroupMember (base m) g u = true ->
     truthy (b_content b) = true \/ truthy (b_attachment_url b) = true ->
     exists row, post_messages now verify hdr g b m =
                   (MMessage row, mkMdb (base m) (group_messages m ++ [row]) (S (next_msg_id m))) /\
       mid row = next_msg_id m /\ m_group_id row = g /\ sender_id row = u /\ created_at row = now /\
       content row = b_content b /\ attachment_url row = b_attachment_url b /\
       (forall k, b_session_id b = Some k -> k <> 0%Z -> m_session_id row = Some k) /\
       (b_session_id b = None \/ b_session_id b = Some 0%Z -> m_session_id row = None)).
Proof.
  intros Hu. unfold post_messages. rewrite Hu. split; [|split].
  - intros Hm. rewrite Hm. reflexivity.
  - intros Hm Hc Ha. rewrite Hm, Hc, Ha. reflexivity.
  - intros Hm Hca. rewrite Hm. simpl.
    assert (negb (truthy (b_content b)) && negb (truthy (b_attachment_url b)) = false) as ->
      by (destruct Hca as [-> | ->]; [reflexivity|apply andb_false_r]).
    eexists. split; [reflexivity|]. simpl. repeat split.
    + intros k Hk Hne. rewrite Hk. simpl. destruct (Z.eqb_spec k 0); [contradiction|reflexivity].
    + intros [-> | ->]; reflexivity.
Qed.

Lemma post_messages_outcomes_witness :
  exists row, post_messages 30 Fixture.verify (Some "Bearer tok-a") 7
                (mkMessageBody (Some 0%Z) (Some "x") None) MsgFixture.mstore =
              (MMessage row, mkMdb (base MsgFixture.mstore)
                               (group_messages MsgFixture.mstore ++ [row]) 3) /\
    sender_id row = 1 /\ m_session_id row = None.
Proof.
  destruct (post_messages_outcomes 30 Fixture.verify (Some "Bearer tok-a") 7 1
              (mkMessageBody (Some 0%Z) (Some "x") None) MsgFixture.mstore)
    as (_ & _ & H3); [vm_compute; reflexivity|].
  destruct (H3 ltac:(vm_compute; reflexivity) ltac:(left; vm_compute; reflexivity))
    as (row & Hp & _ & _ & Hs & _ & _ & _ & _ & Hn).
  exists row. split; [exact Hp|]. split; [exact Hs|]. apply Hn. right. reflexivity.
Defined.

(** X8 (message listing, scope and order).  A successful listing holds at
    most [limit] rows (100 when no limit is given), in ascending
    [created_at] order, each a stored message of the path's group and, when
    a non-empty [sessionId] is given, of that session. *)
Theorem get_messages_scope (pg_int : string -> option Z) (limit_of : string -> option nat)
    (verify : string -> verify_result) (hdr : option string) (g : nat) (sessionId limit : option string)
    (m : mdb) (l : list (message * option string)) :
  get_messages pg_int limit_of verify hdr g sessionId limit m = MMessages l ->
  (exists n, message_limit limit_of limit = Some n /\ length l <= n) /\
  Sorted (fun a b => (created_at (fst a) <= created_at (fst b))%Z) l /\
  (forall x sn, In (x, sn) l ->
     In x (group_messages m) /\ m_group_id x = g /\
     (forall s, sessionId = Some s -> s <> "" -> exists k, pg_int s = Some k /\ m_session_id x = Some k)).
Proof.
  intros H. destruct (get_messages_inv _ _ _ _ _ _ _ _ _ H) as (n & keep & Hn & Hk & Hl).
  cbv zeta in Hl. rewrite Hl. clear H Hl.
  set (L := sort_by_created_desc (filter keep (group_messages m))).
  split; [|split].
  - exists n. split; [exact Hn|]. rewrite length_rev, length_map, length_firstn. lia.
  - apply rev_map_sorted; [reflexivity|]. apply StronglySorted_firstn. apply sort_by_created_desc_strongly.
  - intros x sn Hin. apply in_rev, in_map_iff in Hin as [z [Hz Hz_in]]. inversion Hz; subst z. clear Hz.
    assert (HL : In x L) by (rewrite <- (firstn_skipn n L); apply in_or_app; left; exact Hz_in).
    apply (Permutation_in _ (sort_by_created_desc_perm _)) in HL.
    apply filter_In in HL as [Hg Hkeep].
    split; [exact Hg|]. eapply message_filter_spec; eassumption.
Qed.

Lemma get_messages_scope_witness :
  exists l, get_messages MsgFixture.pg_int MsgFixture.limit_of Fixture.verify (Some "Bearer tok-a") 7
              (Some "1") None MsgFixture.mstore = MMessages l /\
    (forall x sn, In (x, sn) l -> m_group_id x = 7 /\ m_session_id x = Some 1%Z).
Proof.
  exists [(MsgFixture.msg_b, Some "B")]. split; [vm_compute; reflexivity|].
  intros x sn Hin.
  destruct (get_messages_scope MsgFixture.pg_int MsgFixture.limit_of Fixture.verify (Some "Bearer tok-a") 7
              (Some "1") None MsgFixture.mstore [(MsgFixture.msg_b, Some "B")]) as (_ & _ & H);
    [vm_compute; reflexivity|].
  destruct (H x sn Hin) as (_ & Hg & Hs). split; [exact Hg|].
  destruct (Hs "1" eq_refl ltac:(discriminate)) as (k & Hk & Hx).
  vm_compute in Hk. injection Hk as <-. exact Hx.
Defined.

Lemma get_messages_shape (pg_int : string -> option Z) (limit_of : string -> option nat)
    (verify : string -> verify_result) (hdr : option string) (g : nat) (sessionId limit : option string)
    (m : mdb) (l : list (message * option string)) :
  get_messages pg_int limit_of verify hdr g sessionId limit m = MMessages l ->
  exists n keep (names : message -> option string),
    message_limit limit_of limit = Some n /\ message_filter pg_int g sessionId = Some keep /\
    l = rev (map (fun x => (x, names x)) (firstn n (sort_by_created_desc (filter keep (group_messages m))))).
Proof.
  intros H. destruct (get_messages_inv _ _ _ _ _ _ _ _ _ H) as (n & keep & Hn & Hk & Hl).
  exists n, keep. eexists. split; [exact Hn|]. split; [exact Hk|]. exact Hl.
Qed.

(** X9 (message listing, the latest ones).  A successful listing holds
    [min limit k] rows, [k] being the number of stored messages the query's
    filters select; every selected message left out is no newer than every
    message returned. *)
Theorem get_messages_latest (pg_int : string -> option Z) (limit_of : string -> option nat)
    (verify : string -> verify_result) (hdr : option string) (g : nat) (sessionId limit : option string)
    (m : mdb) (l : list (message * option string)) (n : nat) (keep : message -> bool) :
  get_messages pg_int limit_of verify hdr g sessionId limit m = MMessages l ->
  message_limit limit_of limit = Some n -> message_filter pg_int g sessionId = Some keep ->
  length l = Nat.min n (length (filter keep (group_messages m))) /\
  (forall x, In x (group_messages m) -> keep x = true -> ~ In x (map fst l) ->
     forall y, In y (map fst l) -> (created_at x <= created_at y)%Z).
Proof.
  intros H Hn Hk.
  destruct (get_messages_shape _ _ _ _ _ _ _ _ _ H) as (n' & keep' & names & Hn' & Hk' & ->).
  rewrite Hn in Hn'. injection Hn' as <-. rewrite Hk in Hk'. injection Hk' as <-.
  set (L := sort_by_created_desc (filter keep (group_messages m))).
  assert (Hfst : map fst (rev (map (fun x => (x, names x)) (firstn n L))) = rev (firstn n L))
    by (rewrite map_rev, map_map; simpl; rewrite map_id; reflexivity).
  split.
  - rewrite length_rev, length_map, length_firstn.
    unfold L. rewrite (Permutation_length (sort_by_created_desc_perm _)). reflexivity.
  - rewrite Hfst. intros x Hx Hkx Hnot y Hy. rewrite <- in_rev in Hnot, Hy.
    assert (HxL : In x L).
    { apply (Permutation_in _ (Permutation_sym (sort_by_created_desc_perm _))).
      apply filter_In. split; assumption. }
    rewrite <- (firstn_skipn n L) in HxL. apply in_app_or in HxL as [HxL|HxL]; [contradiction|].
    pose proof (sort_by_created_desc_strongly (filter keep (group_messages m))) as HS.
    fold L in HS. rewrite <- (firstn_skipn n L) in HS.
    exact (StronglySorted_app_inv (fun a b => (created_at b <= created_at a)%Z) _ _ y x HS Hy HxL).
Qed.

Lemma get_messages_latest_witness :
  length [(MsgFixture.msg_a, Some "A")] = 1 /\
  (created_at MsgFixture.msg_b <= created_at MsgFixture.msg_a)%Z.
Proof.
  destruct (get_messages_latest MsgFixture.pg_int MsgFixture.limit_of Fixture.verify (Some "Bearer tok-b") 7
              None (Some "1") MsgFixture.mstore [(MsgFixture.msg_a, Some "A")] 1
              (fun x => Nat.eqb (m_group_id x) 7)) as [Hlen Hold];
    [vm_compute; reflexivity|reflexivity|reflexivity|].
  split; [exact Hlen|].
  apply Hold; [simpl; auto|reflexivity| |simpl; auto].
  simpl. intros [H|[]]. discriminate H.
Defined.

(** X10 (message listing, sender names).  When profile ids are unique, each
    listed message carries as [sender_name] the full name of its sender's
    profile, or null when that profile is missing or its name is empty. *)
Theorem get_messages_sender_names (pg_int : string -> option Z) (limit_of : string -> option nat)
    (verify : string -> verify_result) (hdr : option string) (g : nat) (sessionId limit : option string)
    (m : mdb) (l : list (message * option string)) :
  NoDup (map pid (profiles (base m))) ->
  get_messages pg_int limit_of verify hdr g sessionId limit m = MMessages l ->
  forall x sn, In (x, sn) l ->
    sn = match find_profile (base m) (sender_id x) with
         | Some p => if String.eqb (full_name p) "" then None else Some (full_name p)
         | None => None
         end.
Proof.
  intros Hnd H x sn Hin.
  destruct (get_messages_inv _ _ _ _ _ _ _ _ _ H) as (n & keep & _ & _ & Hl).
  cbv zeta in Hl. subst l.
  apply in_rev, in_map_iff in Hin as [z [Hz Hz_in]]. inversion Hz; subst z sn. clear Hz.
  assert (Hk : In (sender_id x)
                 (nat_set (map sender_id (firstn n (sort_by_created_desc (filter keep (group_messages m)))))))
    by (apply nat_set_in, in_map; exact Hz_in).
  destruct (nat_set (map sender_id (firstn n (sort_by_created_desc (filter keep (group_messages m))))))
    as [|h t] eqn:Es; [contradiction|].
  unfold from_entries_get. rewrite from_entries_get_acc.
  2: { rewrite map_map. exact (NoDup_map_filter pid _ _ Hnd). }
  rewrite find_map_fun. rewrite find_filter_sub.
  - unfold find_profile. simpl.
    destruct (find (fun a => Nat.eqb (pid a) (sender_id x)) (profiles (base m))) as [p|]; simpl;
      [|reflexivity].
    unfold or_null, truthy. destruct (String.eqb (full_name p) ""); reflexivity.
  - intros y Hy. simpl in Hy. apply existsb_exists. exists (sender_id x). split; [exact Hk|].
    apply Nat.eqb_eq in Hy. rewrite Hy. apply Nat.eqb_refl.
Qed.

Lemma get_messages_sender_names_witness :
  Some "B" = match find_profile (base MsgFixture.mstore) 2 with
             | Some p => if String.eqb (full_name p) "" then None else Some (full_name p)
             | None => None
             end.
Proof.
  apply (get_messages_sender_names MsgFixture.pg_int MsgFixture.limit_of Fixture.verify (Some "Bearer tok-a") 7
           None None MsgFixture.mstore [(MsgFixture.msg_b, Some "B"); (MsgFixture.msg_a, Some "A")])
    with (x := MsgFixture.msg_b).
  - vm_compute. repeat constructor; simpl; intuition discriminate.
  - vm_compute. reflexivity.
  - simpl. auto.
Defined.

(** X11 (post then list).  A message posted at an instant later than every
    stored message is, for any authenticated member listing the group with
    no session filter and the default limit, the last row of the listing. *)
Theorem post_then_get_messages (pg_int : string -> option Z) (limit_of : string -> option nat)
    (now : Z) (verify verify' : string -> verify_result) (hdr hdr' : option string)
    (g u' : nat) (b : message_body) (m m' : mdb) (row : message) :
  post_messages now verify hdr g b m = (MMessage row, m') ->
  (forall x, In x (group_messages m) -> (created_at x < now)%Z) ->
  getUser verify' hdr' = UUser u' -> requireGroupMember (base m) g u' = true ->
  exists l0 sn, get_messages pg_int limit_of verify' hdr' g None None m' = MMessages (l0 ++ [(row, sn)]).
Proof.
  intros Hp Hnew Hu Hm.
  unfold post_messages in Hp.
  destruct (getUser verify hdr) as [u| |e]; try discriminate Hp.
  destruct (negb (requireGroupMember (base m) g u)); [discriminate Hp|].
  destruct (negb (truthy (b_content b)) && negb (truthy (b_attachment_url b))); [discriminate Hp|].
  injection Hp as Hrow Hm'. rewrite Hrow in Hm'. subst m'.
  destruct (get_messages_default pg_int limit_of verify' hdr' g u'
              (mkMdb (base m) (group_messages m ++ [row]) (S (next_msg_id m))) Hu Hm) as [names ->].
  simpl. rewrite filter_app.
  assert (Hr : filter (fun x => Nat.eqb (m_group_id x) g) [row] = [row])
    by (rewrite <- Hrow; simpl; rewrite Nat.eqb_refl; reflexivity).
  rewrite Hr.
  destruct (sort_newest_head (filter (fun x => Nat.eqb (m_group_id x) g) (group_messages m)) row) as [t ->].
  - intros x Hx. apply filter_In in Hx as [Hx _]. rewrite <- Hrow. simpl. apply Hnew. exact Hx.
  - simpl. eexists. eexists. reflexivity.
Qed.

Lemma post_then_get_messages_witness :
  exists l0 sn, get_messages MsgFixture.pg_int MsgFixture.limit_of Fixture.verify (Some "Bearer tok-b") 7 None None
                  (snd (post_messages 30 Fixture.verify (Some "Bearer tok-a") 7
                          (mkMessageBody None (Some "new") None) MsgFixture.mstore)) =
                MMessages (l0 ++ [(mkMessage 2 7 None 1 (Some "new") None 30, sn)]).
Proof.
  apply (post_then_get_messages MsgFixture.pg_int MsgFixture.limit_of 30 Fixture.verify Fixture.verify
           (Some "Bearer tok-a") (Some "Bearer tok-b") 7 2 (mkMessageBody None (Some "new") None)
           MsgFixture.mstore).
  - vm_compute. reflexivity.
  - simpl. intros x [<-|[<-|[]]]; vm_compute; reflexivity.
  - vm_compute. reflexivity.
  - vm_compute. reflexivity.
Defined.
